(** * get-qr-mail: the per-user OAuth2 credential lifecycle

    Shallow embedding of the three server variants of the repository:
    - [src/unnamed/part_000]: per-user token files, [fs.promises] I/O;
    - [src/unnamed/part_001]: per-user token files, synchronous I/O;
    - [src/server.js]: one process-wide cached authorization client.

    The environment of the program (the file system, Node's [path.join] and
    [JSON.parse], the provider's client library, the Gmail service, the UUID
    generator) is modelled explicitly; the handlers are written in a small
    state-and-exception monad that records every effect in a trace. *)

From Stdlib Require Import String Ascii List ZArith NArith Bool Lia.
From stdpp Require Import gmap strings.

Local Open Scope string_scope.
Local Open Scope list_scope.

(** ** JavaScript strings

    A JavaScript string is a sequence of UTF-16 code units.  It is represented
    by a Rocq [string] holding each code unit encoded separately as one to
    three bytes (the UTF-8 scheme applied per code unit), so that ASCII text is
    itself and every JavaScript string has exactly one representation. *)

Module Str.

Fixpoint split_on (sep : ascii) (s : string) : list string :=
  match s with
  | EmptyString => [""]
  | String c rest =>
      if Ascii.eqb c sep then "" :: split_on sep rest
      else match split_on sep rest with
           | [] => [String c ""]
           | seg :: segs => String c seg :: segs
           end
  end.

Fixpoint join_with (sep : string) (l : list string) : string :=
  match l with
  | [] => ""
  | x :: rest =>
      match rest with
      | [] => x
      | _ :: _ => x +:+ sep +:+ join_with sep rest
      end
  end.

Definition first_is (c : ascii) (s : string) : bool :=
  match s with
  | String c' _ => Ascii.eqb c' c
  | EmptyString => false
  end.

Fixpoint last_is (c : ascii) (s : string) : bool :=
  match s with
  | EmptyString => false
  | String c' EmptyString => Ascii.eqb c' c
  | String _ rest => last_is c rest
  end.

Fixpoint contains (c : ascii) (s : string) : bool :=
  match s with
  | EmptyString => false
  | String c' rest => Ascii.eqb c' c || contains c rest
  end.

Definition is_empty (s : string) : bool :=
  match s with EmptyString => true | String _ _ => false end.

End Str.

(** ** Node's [path] module (POSIX flavour)

    [normalizeString] walks the path one separator-delimited segment at a
    time: an empty segment and ["."] are dropped, [".."] removes the last kept
    segment (or is kept when the path is relative and nothing is left to
    remove), every other segment is kept. *)

Module Path.

Definition sep : ascii := "/"%char.

Fixpoint normalizeString (allowAboveRoot : bool) (res : list string)
         (segs : list string) : list string :=
  match segs with
  | [] => rev res
  | s :: rest =>
      if String.eqb s "" || String.eqb s "." then
        normalizeString allowAboveRoot res rest
      else if String.eqb s ".." then
        match res with
        | top :: below =>
            if String.eqb top ".." then
              normalizeString allowAboveRoot
                (if allowAboveRoot then ".." :: res else res) rest
            else normalizeString allowAboveRoot below rest
        | [] =>
            normalizeString allowAboveRoot
              (if allowAboveRoot then [".."] else []) rest
        end
      else normalizeString allowAboveRoot (s :: res) rest
  end.

Definition normalize (p : string) : string :=
  if Str.is_empty p then "."
  else
    let isAbsolute := Str.first_is sep p in
    let trailingSeparator := Str.last_is sep p in
    let body :=
      Str.join_with "/"
        (normalizeString (negb isAbsolute) [] (Str.split_on sep p)) in
    if Str.is_empty body then
      if isAbsolute then "/" else if trailingSeparator then "./" else "."
    else
      let body' := if trailingSeparator then body +:+ "/" else body in
      if isAbsolute then "/" +:+ body' else body'.

(** [path.join(a, b)]: empty arguments are skipped, the others are glued
    with the separator and the result is normalized. *)
Definition join (a b : string) : string :=
  match Str.is_empty a, Str.is_empty b with
  | true, true => "."
  | true, false => normalize b
  | false, true => normalize a
  | false, false => normalize (a +:+ "/" +:+ b)
  end.

(** A segment that [normalizeString] keeps as it is. *)
Definition plain_segment (s : string) : bool :=
  negb (String.eqb s "" || String.eqb s "." || String.eqb s "..").

(** A relative path that is its own normal form. *)
Definition plain (p : string) : bool :=
  forallb plain_segment (Str.split_on sep p).

(** The directory the operating system resolves a path in: the path without
    its last segment. *)
Definition parent_dir (p : string) : string :=
  let d := Str.join_with "/" (removelast (Str.split_on sep p)) in
  if Str.is_empty d then (if Str.first_is sep p then "/" else ".") else d.

End Path.

(** ** Errors a JavaScript call can throw *)

Inductive errno := ENOENT | EACCES | EISDIR | ENOTDIR.

Inductive error :=
| FsError (code : errno) (path : string)
| SyntaxError
| TypeError
| RangeError
| ProviderError (message : string).

Inductive result (A : Type) :=
| Ok (a : A)
| Throw (e : error).
Arguments Ok {A} a.
Arguments Throw {A} e.

(** ** The file system

    A finite map from path to node.  A file carries its text and whether the
    process may read and write it; a directory whether entries may be created
    in it. *)

Inductive fnode :=
| Dir (writable : bool)
| File (content : string) (readable writable : bool).

Abbreviation filesystem := (gmap string fnode).

Module Fs.

Definition readFile (fs : filesystem) (p : string) : result string :=
  match fs !! p with
  | None => Throw (FsError ENOENT p)
  | Some (Dir _) => Throw (FsError EISDIR p)
  | Some (File c r _) => if r then Ok c else Throw (FsError EACCES p)
  end.

Definition writeFile (fs : filesystem) (p : string) (c : string)
  : result filesystem :=
  match fs !! p with
  | Some (Dir _) => Throw (FsError EISDIR p)
  | Some (File _ r w) =>
      if w then Ok (<[p := File c r w]> fs) else Throw (FsError EACCES p)
  | None =>
      match fs !! Path.parent_dir p with
      | Some (Dir w) =>
          if w then Ok (<[p := File c true true]> fs)
          else Throw (FsError EACCES p)
      | Some (File _ _ _) => Throw (FsError ENOTDIR p)
      | None => Throw (FsError ENOENT p)
      end
  end.

End Fs.

(** ** JSON values and [JSON.parse]

    A number keeps the exact decimal value of its literal,
    [(-1)^neg * mantissa * 10^exp10]; what JavaScript observes of it here is
    only whether it converts to zero. *)

#[warnings="-register-all"]
Inductive json :=
| JNull
| JBool (b : bool)
| JNumber (neg : bool) (mantissa : N) (exp10 : Z)
| JString (s : string)
| JArray (items : list json)
| JObject (members : list (string * json)).

Module Json.

Definition is_ws (c : ascii) : bool :=
  let n := nat_of_ascii c in
  Nat.eqb n 32 || Nat.eqb n 9 || Nat.eqb n 10 || Nat.eqb n 13.

Fixpoint skip_ws (s : string) : string :=
  match s with
  | String c rest => if is_ws c then skip_ws rest else s
  | EmptyString => s
  end.

Definition digit_of (c : ascii) : option N :=
  let n := N_of_ascii c in
  if (48 <=? n)%N && (n <=? 57)%N then Some (n - 48)%N else None.

Definition hex_of (c : ascii) : option N :=
  let n := N_of_ascii c in
  if (48 <=? n)%N && (n <=? 57)%N then Some (n - 48)%N
  else if (65 <=? n)%N && (n <=? 70)%N then Some (n - 55)%N
  else if (97 <=? n)%N && (n <=? 102)%N then Some (n - 87)%N
  else None.

(** One UTF-16 code unit as its bytes in the representation of strings. *)
Definition unit_bytes (u : N) : string :=
  if (u <? 128)%N then String (ascii_of_N u) ""
  else if (u <? 2048)%N then
    String (ascii_of_N (192 + u / 64))
      (String (ascii_of_N (128 + u mod 64)) "")
  else
    String (ascii_of_N (224 + u / 4096))
      (String (ascii_of_N (128 + (u / 64) mod 64))
         (String (ascii_of_N (128 + u mod 64)) "")).

(** The first code unit of a string, as [s[0]] returns it. *)
Definition first_unit (s : string) : option string :=
  match s with
  | EmptyString => None
  | String c rest =>
      let n := N_of_ascii c in
      if (n <? 192)%N then Some (String c "")
      else if (n <? 224)%N then Some (substring 0 2 s)
      else Some (substring 0 3 s)
  end.

(** The characters of a string literal after its opening quote. *)
Fixpoint parse_chars (s : string) : option (string * string) :=
  match s with
  | EmptyString => None
  | String c rest =>
      if Ascii.eqb c "034"%char then Some ("", rest)
      else if Ascii.eqb c "\"%char then
        match rest with
        | String e rest' =>
            let simple (u : N) :=
              match parse_chars rest' with
              | Some (t, r) => Some (String (ascii_of_N u) t, r)
              | None => None
              end in
            if Ascii.eqb e "034"%char then simple 34%N
            else if Ascii.eqb e "\"%char then simple 92%N
            else if Ascii.eqb e "/"%char then simple 47%N
            else if Ascii.eqb e "b"%char then simple 8%N
            else if Ascii.eqb e "f"%char then simple 12%N
            else if Ascii.eqb e "n"%char then simple 10%N
            else if Ascii.eqb e "r"%char then simple 13%N
            else if Ascii.eqb e "t"%char then simple 9%N
            else if Ascii.eqb e "u"%char then
              match rest' with
              | String h1 (String h2 (String h3 (String h4 rest''))) =>
                  match hex_of h1, hex_of h2, hex_of h3, hex_of h4 with
                  | Some a, Some b, Some c', Some d =>
                      match parse_chars rest'' with
                      | Some (t, r) =>
                          Some (unit_bytes (((a * 16 + b) * 16 + c') * 16 + d)
                                  +:+ t, r)
                      | None => None
                      end
                  | _, _, _, _ => None
                  end
              | _ => None
              end
            else None
        | EmptyString => None
        end
      else if (N_of_ascii c <? 32)%N then None
      else
        match parse_chars rest with
        | Some (t, r) => Some (String c t, r)
        | None => None
        end
  end.

(** The longest run of decimal digits: its value, its length, the rest. *)
Fixpoint take_digits (acc : N) (len : nat) (s : string) : N * nat * string :=
  match s with
  | String c rest =>
      match digit_of c with
      | Some d => take_digits (acc * 10 + d)%N (S len) rest
      | None => (acc, len, s)
      end
  | EmptyString => (acc, len, s)
  end.

(** The rest of a string that begins with [c]. *)
Definition starts (c : ascii) (s : string) : option string :=
  match s with
  | String c' rest => if Ascii.eqb c' c then Some rest else None
  | EmptyString => None
  end.

Definition parse_exponent (s : string) : option (Z * string) :=
  let after_e :=
    match starts "e" s with
    | Some r => Some r
    | None => starts "E" s
    end in
  match after_e with
  | None => Some (0%Z, s)
  | Some rest =>
      let '(sign, rest1) :=
        match starts "+" rest with
        | Some r => (1%Z, r)
        | None =>
            match starts "-" rest with
            | Some r => ((-1)%Z, r)
            | None => (1%Z, rest)
            end
        end in
      match take_digits 0 0 rest1 with
      | (_, O, _) => None
      | (e, S _, r) => Some ((sign * Z.of_N e)%Z, r)
      end
  end.

Definition parse_fraction (int : N) (s : string) : option (N * nat * string) :=
  match starts "." s with
  | Some rest =>
      match take_digits int 0 rest with
      | (_, O, _) => None
      | (m, S k, r) => Some (m, S k, r)
      end
  | None => Some (int, O, s)
  end.

(** The integer part: the single digit zero, or digits without a leading
    zero. *)
Definition parse_int (s : string) : option (N * string) :=
  match starts "0" s with
  | Some r => Some (0%N, r)
  | None =>
      match take_digits 0 0 s with
      | (_, O, _) => None
      | (n, S _, r) => Some (n, r)
      end
  end.

(** A number literal: an optional minus sign, an integer part, an optional
    fraction, an optional exponent. *)
Definition parse_number (s : string) : option (json * string) :=
  let '(neg, s1) :=
    match starts "-" s with
    | Some r => (true, r)
    | None => (false, s)
    end in
  match parse_int s1 with
  | None => None
  | Some (n, s2) =>
      match parse_fraction n s2 with
      | None => None
      | Some (m, k, s3) =>
          match parse_exponent s3 with
          | None => None
          | Some (e, s4) => Some (JNumber neg m (e - Z.of_nat k), s4)
          end
      end
  end.

(** The rest of a string that begins with the literal [lit]. *)
Fixpoint expect (lit : string) (s : string) : option string :=
  match lit with
  | EmptyString => Some s
  | String c lit' =>
      match starts c s with
      | Some rest => expect lit' rest
      | None => None
      end
  end.

Definition parse_literal (lit : string) (v : json) (s : string)
  : option (json * string) :=
  match expect lit s with
  | Some rest => Some (v, rest)
  | None => None
  end.

(** A value that is neither an array nor an object. *)
Definition parse_scalar (s : string) : option (json * string) :=
  match starts "034" s with
  | Some rest =>
      match parse_chars rest with
      | Some (t, r) => Some (JString t, r)
      | None => None
      end
  | None =>
      match parse_literal "true" (JBool true) s with
      | Some x => Some x
      | None =>
          match parse_literal "false" (JBool false) s with
          | Some x => Some x
          | None =>
              match parse_literal "null" JNull s with
              | Some x => Some x
              | None => parse_number s
              end
          end
      end
  end.

Fixpoint parse_value (fuel : nat) (s : string) {struct fuel}
  : option (json * string) :=
  match fuel with
  | O => None
  | S f =>
      match starts "[" (skip_ws s) with
      | Some rest =>
          match starts "]" (skip_ws rest) with
          | Some r => Some (JArray [], r)
          | None => parse_elements f rest []
          end
      | None =>
          match starts "{" (skip_ws s) with
          | Some rest =>
              match starts "}" (skip_ws rest) with
              | Some r => Some (JObject [], r)
              | None => parse_members f rest []
              end
          | None => parse_scalar (skip_ws s)
          end
      end
  end
with parse_elements (fuel : nat) (s : string) (acc : list json) {struct fuel}
  : option (json * string) :=
  match fuel with
  | O => None
  | S f =>
      match parse_value f s with
      | None => None
      | Some (v, r) =>
          match starts "," (skip_ws r) with
          | Some r' => parse_elements f r' (v :: acc)
          | None =>
              match starts "]" (skip_ws r) with
              | Some r' => Some (JArray (rev (v :: acc)), r')
              | None => None
              end
          end
      end
  end
with parse_members (fuel : nat) (s : string) (acc : list (string * json))
       {struct fuel} : option (json * string) :=
  match fuel with
  | O => None
  | S f =>
      match starts "034" (skip_ws s) with
      | None => None
      | Some r0 =>
          match parse_chars r0 with
          | None => None
          | Some (k, r1) =>
              match starts ":" (skip_ws r1) with
              | None => None
              | Some r2 =>
                  match parse_value f r2 with
                  | None => None
                  | Some (v, r3) =>
                      match starts "," (skip_ws r3) with
                      | Some r4 => parse_members f r4 ((k, v) :: acc)
                      | None =>
                          match starts "}" (skip_ws r3) with
                          | Some r4 => Some (JObject (rev ((k, v) :: acc)), r4)
                          | None => None
                          end
                      end
                  end
              end
          end
      end
  end.

(** [JSON.parse(text)]: one value, surrounded by white space only.  Every
    nested call consumes a character first, so twice the length of the text
    is fuel enough (lemma [parse_value_fuel]). *)
Definition parse (text : string) : result json :=
  match parse_value (2 * String.length text + 2) text with
  | Some (v, r) =>
      if Str.is_empty (skip_ws r) then Ok v else Throw SyntaxError
  | None => Throw SyntaxError
  end.

(** Whether the literal converts to the Number zero: it denotes zero, or a
    value of at most [2^-1075], which rounds to zero. *)
Definition number_is_zero (m : N) (e : Z) : bool :=
  (m =? 0)%N
  || ((e <? 0)%Z && (Z.of_N m * 2 ^ 1075 <=? 10 ^ (- e))%Z).

(** JavaScript's ToBoolean on a parsed value. *)
Definition truthy (v : json) : bool :=
  match v with
  | JNull => false
  | JBool b => b
  | JNumber _ m e => negb (number_is_zero m e)
  | JString s => negb (Str.is_empty s)
  | JArray _ => true
  | JObject _ => true
  end.

(** The member of an object under a key; a later duplicate wins. *)
Fixpoint member (k : string) (kvs : list (string * json)) : option json :=
  match kvs with
  | [] => None
  | (k', v) :: rest =>
      match member k rest with
      | Some v' => Some v'
      | None => if String.eqb k' k then Some v else None
      end
  end.

End Json.


(** ** JavaScript views of a parsed value *)

Module Js.

(** [v.k] on a value that is neither [null] nor [undefined], for the keys
    this program reads (["web"], ["installed"], ["client_id"],
    ["client_secret"], ["redirect_uris"], ["refresh_token"]): the member of
    an object, [undefined] on anything else. *)
Definition field (v : json) (k : string) : option json :=
  match v with
  | JObject kvs => Json.member k kvs
  | _ => None
  end.

(** [v[0]] on a value that is not [null]. *)
Definition index0 (v : json) : option json :=
  match v with
  | JArray l => head l
  | JString s => JString <$> Json.first_unit s
  | JObject kvs => Json.member "0" kvs
  | _ => None
  end.

(** ToBoolean of a possibly [undefined] value. *)
Definition truthy (v : option json) : bool :=
  match v with
  | Some j => Json.truthy j
  | None => false
  end.

(** What a file read hands to the code: the text, or (from the promise API,
    when the call is not awaited) the promise object itself. *)
Inductive read_value :=
| Text (s : string)
| PendingPromise.

(** ToString, as [JSON.parse] applies it to its argument. *)
Definition to_text (d : read_value) : string :=
  match d with
  | Text s => s
  | PendingPromise => "[object Promise]"
  end.

End Js.

(** ** Data of the program *)

(** The authorization client of the provider's library. *)
Record client := {
  client_id : option json;
  client_secret : option json;
  redirect_uri : option json;
  credentials : json
}.

Definition with_credentials (c : client) (tokens : json) : client :=
  {| client_id := client_id c; client_secret := client_secret c;
     redirect_uri := redirect_uri c; credentials := tokens |}.

(** The options object handed to [generateAuthUrl]. *)
Record auth_url_opts := {
  access_type : string;
  prompt : string;
  scope : list string;
  state : string
}.

Record message := { msg_id : string }.

Record header := { name : string; value : string }.

(** A normalized message record. *)
Record email := {
  id : string;
  date : string;
  place : string;
  person : string;
  mail : string;
  qr_data : string;
  subject : option string
}.

Inductive body :=
| Text (s : string)
| Emails (l : list email)
| Envelope (msg : string) (err : option string).

Inductive response :=
| Redirect (url : string)
| Reply (status : nat) (b : body).

(** Every effect of the program on its environment. *)
Inductive event :=
| EvReadFile (path : string)
| EvWriteFile (path : string) (content : string)
| EvGenerateAuthUrl (c : client) (opts : auth_url_opts)
| EvGetToken (c : client) (code : string)
| EvAuthenticate
| EvFromJSON (v : json)
| EvGmailList (auth : client) (q : string) (maxResults : nat)
| EvGmailGet (auth : client) (id : string)
| EvUuid
| EvConsoleLog (msg : string)
| EvConsoleError (msg : string) (err : option error).

(** The collaborators outside the repository. *)
Record Env := {
  (** [__dirname], and [process.cwd()] in [server.js] *)
  dirname : string;
  (** [OAuth2Client.generateAuthUrl] *)
  generateAuthUrl : client -> auth_url_opts -> result string;
  (** [OAuth2Client.getToken]: the provider's token endpoint *)
  getToken : client -> string -> result json;
  (** [authenticate] of [@google-cloud/local-auth] *)
  authenticate : result client;
  (** [google.auth.fromJSON] *)
  fromJSON : json -> result client;
  (** [gmail.users.messages.list]: [data.messages], which may be missing *)
  gmail_list : client -> string -> nat -> result (option (list message));
  (** [gmail.users.messages.get]: [data.payload.headers] *)
  gmail_get : client -> string -> result (list header);
  (** the n-th identifier [uuidv4()] returns *)
  uuid : nat -> string;
  (** [new Date(text).toISOString()], [None] for an invalid date *)
  toISOString : string -> option string;
  (** [JSON.stringify(value, null, indent)] *)
  stringify : nat -> json -> string;
  (** [error.message] *)
  message_of : error -> string
}.

(** ** The state-and-exception monad of a request *)

Record world := {
  w_fs : filesystem;
  (** module variable [authClient] of [server.js] *)
  w_authClient : option client;
  (** how many identifiers [uuidv4] has handed out *)
  w_uuids : nat;
  (** effects so far, oldest first *)
  w_trace : list event
}.

(** The world after some more effects. *)
Definition record (w : world) (evs : list event) : world :=
  {| w_fs := w_fs w; w_authClient := w_authClient w; w_uuids := w_uuids w;
     w_trace := w_trace w ++ evs |}.

(** The world with another file system. *)
Definition with_fs (w : world) (fs : filesystem) : world :=
  {| w_fs := fs; w_authClient := w_authClient w; w_uuids := w_uuids w;
     w_trace := w_trace w |}.

(** The world after [authClient = c]. *)
Definition with_authClient (w : world) (c : client) : world :=
  {| w_fs := w_fs w; w_authClient := Some c; w_uuids := w_uuids w;
     w_trace := w_trace w |}.

(** The world after [uuidv4] handed out one more identifier. *)
Definition minted (w : world) : world :=
  {| w_fs := w_fs w; w_authClient := w_authClient w;
     w_uuids := S (w_uuids w); w_trace := w_trace w |}.

Definition M (A : Type) : Type := world -> result A * world.

Definition ret {A} (a : A) : M A := fun w => (Ok a, w).

Definition throw {A} (e : error) : M A := fun w => (Throw e, w).

Definition bind {A B} (m : M A) (k : A -> M B) : M B :=
  fun w =>
    match m w with
    | (Ok a, w') => k a w'
    | (Throw e, w') => (Throw e, w')
    end.

(** [try { m } catch (e) { h e }] *)
Definition try_catch {A} (m : M A) (h : error -> M A) : M A :=
  fun w =>
    match m w with
    | (Ok a, w') => (Ok a, w')
    | (Throw e, w') => h e w'
    end.

Definition lift {A} (r : result A) : M A := fun w => (r, w).

Declare Scope m_scope.
Delimit Scope m_scope with M.
Notation "x <- c1 ;; c2" := (bind c1 (fun x => c2))
  (at level 100, c1 at next level, right associativity) : m_scope.
Notation "c1 ;; c2" := (bind c1 (fun _ => c2))
  (at level 100, right associativity) : m_scope.
Local Open Scope m_scope.

Definition emit (e : event) : M unit := fun w => (Ok tt, record w [e]).

Definition console_log (msg : string) : M unit := emit (EvConsoleLog msg).

Definition console_error (msg : string) (err : option error) : M unit :=
  emit (EvConsoleError msg err).

Definition readFile (p : string) : M string :=
  emit (EvReadFile p) ;; (fun w => (Fs.readFile (w_fs w) p, w)).

Definition writeFile (p : string) (content : string) : M unit :=
  emit (EvWriteFile p content) ;;
  (fun w =>
     match Fs.writeFile (w_fs w) p content with
     | Ok fs' => (Ok tt, with_fs w fs')
     | Throw e => (Throw e, w)
     end).

Definition get_authClient : M (option client) :=
  fun w => (Ok (w_authClient w), w).

Definition set_authClient (c : client) : M unit :=
  fun w => (Ok tt, with_authClient w c).

(** ** The Mailbox Query Service: [getLatestEmails] *)

(** What differs between the three copies of [getLatestEmails]. *)
Record query := {
  q : string;
  maxResults : nat;
  with_subject : bool
}.

Module Mailbox.

Section Program.

Variable E : Env.

Definition uuidv4 : M string :=
  emit EvUuid ;; (fun w => (Ok (uuid E (w_uuids w)), minted w)).

Definition messages_list (auth : client) (cfg : query)
  : M (option (list message)) :=
  emit (EvGmailList auth (q cfg) (maxResults cfg)) ;;
  lift (gmail_list E auth (q cfg) (maxResults cfg)).

Definition messages_get (auth : client) (id : string) : M (list header) :=
  emit (EvGmailGet auth id) ;; lift (gmail_get E auth id).

(** [headers.find(header => header.name === n)] *)
Definition find_header (n : string) (headers : list header)
  : option header :=
  List.find (fun h => String.eqb (name h) n) headers.

(** [subjectHeader ? subjectHeader.value : 'No Subject'] *)
Definition subject_of (headers : list header) : string :=
  match find_header "Subject" headers with
  | Some h => value h
  | None => "No Subject"
  end.

(** ['Unknown Date'], or the [Date] header through
    [new Date(...).toISOString()], which throws on an invalid date. *)
Definition date_of (headers : list header) : result string :=
  match find_header "Date" headers with
  | None => Ok "Unknown Date"
  | Some h =>
      match toISOString E (value h) with
      | Some iso => Ok iso
      | None => Throw RangeError
      end
  end.

(** The object pushed onto [emailData]. *)
Definition normalized (cfg : query) (userName : string) (m : message)
           (subject date id : string) : email :=
  {| id := id;
     date := date;
     place := "shibuya-OOOO";
     person := userName;
     mail := "https://mail.google.com/mail/u/0/#inbox/" +:+ msg_id m;
     qr_data := "abcdefghijk0123456";
     subject := if with_subject cfg then Some subject else None |}.

(** The body of the inner [try]: fetch one message and normalize it. *)
Definition fetch_one (cfg : query) (auth : client) (userName : string)
           (m : message) : M email :=
  headers <- messages_get auth (msg_id m) ;;
  let subject := subject_of headers in
  date <- lift (date_of headers) ;;
  id <- uuidv4 ;;
  ret (normalized cfg userName m subject date id).

(** The [for ... of] loop over the listing. *)
Fixpoint fetch_all (cfg : query) (auth : client) (userName : string)
         (messages : list message) (emailData : list email)
  : M (list email) :=
  match messages with
  | [] => ret emailData
  | m :: rest =>
      emailData' <-
        try_catch
          (e <- fetch_one cfg auth userName m ;; ret (emailData ++ [e]))
          (fun err =>
             console_error ("Error fetching message " +:+ msg_id m +:+ ":")
                           (Some err) ;;
             ret emailData) ;;
      fetch_all cfg auth userName rest emailData'
  end.

Definition getLatestEmails (cfg : query) (auth : client)
           (userName : string) : M (list email) :=
  try_catch
    (messages <- messages_list auth cfg ;;
     match messages with
     | None | Some [] => console_log "No messages found." ;; ret []
     | Some (m :: rest) => fetch_all cfg auth userName (m :: rest) []
     end)
    (fun err =>
       console_error "The API returned an error:" (Some err) ;;
       throw err).

End Program.

Definition query_part_000 : query :=
  {| q := "-label:spam -label:trash -label:promotions -label:social"
            +:+ " subject:(入退館 OR 入館 OR 来社)";
     maxResults := 10;
     with_subject := true |}.

Definition query_part_001 : query :=
  {| q := "-label:spam -label:trash -label:promotions -label:social"
            +:+ " subject:(入退館 OR 入館 OR 来社 OR　来館　OR 訪問)";
     maxResults := 50;
     with_subject := true |}.

Definition query_server_js : query :=
  {| q := "-label:spam -label:trash -label:promotions -label:social"
            +:+ " {subject:入退館 subject:入館 subject:来社}";
     maxResults := 10;
     with_subject := false |}.

End Mailbox.

(** ** The per-user variants: [part_000] and [part_001] *)

Inductive variant := Part000 | Part001.

Inductive outcome :=
| Exited (code : nat)
| Listening (port : N) (credentials : json).

Module PerUser.

Section Program.

Variable E : Env.
Variable v : variant.

Definition port : N :=
  match v with Part000 => 4000%N | Part001 => 5001%N end.

Definition CREDENTIALS_PATH : string :=
  Path.join (dirname E) "credentials.json".

Definition SCOPES : list string :=
  ["https://www.googleapis.com/auth/gmail.readonly"].

(** What the startup read of [credentials.json] binds [data] to:
    [part_001] calls [fs.readFileSync]; [part_000] calls [readFile] of
    [fs.promises] without awaiting it. *)
Definition read_credentials : M Js.read_value :=
  match v with
  | Part000 => emit (EvReadFile CREDENTIALS_PATH) ;; ret Js.PendingPromise
  | Part001 => data <- readFile CREDENTIALS_PATH ;; ret (Js.Text data)
  end.

(** The body of the startup [try]. *)
Definition load_credentials : M json :=
  data <- read_credentials ;;
  credentials <- lift (Json.parse (Js.to_text data)) ;;
  console_log "Credentials loaded successfully." ;;
  ret credentials.

(** The module body: load the configuration or exit, then listen. *)
Definition main (w : world) : outcome * world :=
  match load_credentials w with
  | (Ok credentials, w1) =>
      let listening :=
        match v with
        | Part000 => "Server running at http://localhost:4000"
        | Part001 => "Server running at http://localhost:5001"
        end in
      (Listening port credentials, snd (console_log listening w1))
  | (Throw e, w1) =>
      (Exited 1,
       snd (console_error "Error loading credentials.json:" (Some e) w1))
  end.

Definition getTokenPathForUser (name : string) : string :=
  Path.join (dirname E) ("token-" +:+ name +:+ ".json").

(** An identity whose token file name has no empty, ["."] or [".."]
    segment, as every identity without a separator has. *)
Definition plain_identity (name : string) : bool :=
  Path.plain ("token-" +:+ name +:+ ".json").

(** [const { client_id, client_secret, redirect_uris } =
     credentials.web || credentials.installed;
    new google.auth.OAuth2(client_id, client_secret, redirect_uris[0])] *)
Definition new_client (credentials : json) : result client :=
  match credentials with
  | JNull => Throw TypeError
  | _ =>
      let web := Js.field credentials "web" in
      let key :=
        if Js.truthy web then web else Js.field credentials "installed" in
      match key with
      | None | Some JNull => Throw TypeError
      | Some k =>
          match Js.field k "redirect_uris" with
          | None | Some JNull => Throw TypeError
          | Some redirect_uris =>
              Ok {| client_id := Js.field k "client_id";
                    client_secret := Js.field k "client_secret";
                    redirect_uri := Js.index0 redirect_uris;
                    credentials := JObject [] |}
          end
      end
  end.

Definition createOAuth2ClientForUser (credentials : json) (name : string)
  : M client :=
  oAuth2Client <- lift (new_client credentials) ;;
  try_catch
    (let tokenPath := getTokenPathForUser name in
     tokenJson <- readFile tokenPath ;;
     tokens <- lift (Json.parse tokenJson) ;;
     ret (with_credentials oAuth2Client tokens))
    (fun e => ret oAuth2Client).

(** What the factory installs into a fresh client [c], read off the file
    system: the parsed token file when it can be read and parsed, nothing
    otherwise. *)
Definition restored (fs : filesystem) (c : client) (name : string)
  : client :=
  match Fs.readFile fs (getTokenPathForUser name) with
  | Ok tokenJson =>
      match Json.parse tokenJson with
      | Ok tokens => with_credentials c tokens
      | Throw _ => c
      end
  | Throw _ => c
  end.

(** The options [/authenticate/:name] hands to [generateAuthUrl]. *)
Definition consent_opts (userName : string) : auth_url_opts :=
  {| access_type := "offline"; prompt := "consent";
     scope := SCOPES; state := userName |}.

(** [/authenticate/:name] *)
Definition authenticate_handler (credentials : json) (userName : string)
  : M response :=
  try_catch
    (oAuth2Client <- createOAuth2ClientForUser credentials userName ;;
     let opts := {| access_type := "offline";
                    prompt := "consent";
                    scope := SCOPES;
                    state := userName |} in
     emit (EvGenerateAuthUrl oAuth2Client opts) ;;
     authUrl <- lift (generateAuthUrl E oAuth2Client opts) ;;
     ret (Redirect authUrl))
    (fun error =>
       console_error "" (Some error) ;;
       ret (Reply 500 (Text "Error generating auth URL."))).

(** [!x] on a query parameter: missing or the empty string. *)
Definition falsy (x : option string) : bool :=
  match x with
  | None => true
  | Some s => Str.is_empty s
  end.

Definition missing_param : M response :=
  match v with
  | Part000 => ret tt
  | Part001 => console_error "Missing code or state param." None
  end ;;
  ret (Reply 400 (Text "Missing code or state param.")).

(** The [try] of [/oauth2callback], once both parameters are there. *)
Definition exchange_and_store (credentials : json) (code state : string)
  : M response :=
  try_catch
    (oAuth2Client <- createOAuth2ClientForUser credentials state ;;
     emit (EvGetToken oAuth2Client code) ;;
     tokens <- lift (getToken E oAuth2Client code) ;;
     let oAuth2Client' := with_credentials oAuth2Client tokens in
     let tokenPath := getTokenPathForUser state in
     writeFile tokenPath (stringify E 2 tokens) ;;
     console_log ("Token stored to " +:+ tokenPath) ;;
     ret (Reply 200 (Text
       match v with
       | Part000 =>
           "Authentication successful for " +:+ state
             +:+ ".<br>Token saved to " +:+ tokenPath
       | Part001 =>
           "Authentication successful for " +:+ state +:+ ". Token saved."
       end)))
    (fun error =>
       console_error
         match v with
         | Part000 => "Error in /oauth2callback:"
         | Part001 => "Error during OAuth2 callback:"
         end (Some error) ;;
       ret (Reply 500 (Text
         match v with
         | Part000 => "Error retrieving access token"
         | Part001 => "Authentication failed."
         end))).

Definition callback_failure : response :=
  Reply 500 (Text
    match v with
    | Part000 => "Error retrieving access token"
    | Part001 => "Authentication failed."
    end).

Definition callback_failure_log : string :=
  match v with
  | Part000 => "Error in /oauth2callback:"
  | Part001 => "Error during OAuth2 callback:"
  end.

Definition callback_success (state : string) : response :=
  Reply 200 (Text
    match v with
    | Part000 =>
        "Authentication successful for " +:+ state
          +:+ ".<br>Token saved to " +:+ getTokenPathForUser state
    | Part001 =>
        "Authentication successful for " +:+ state +:+ ". Token saved."
    end).

(** [/oauth2callback] *)
Definition oauth2callback (credentials : json) (code state : option string)
  : M response :=
  match code, state with
  | Some code', Some state' =>
      if falsy code || falsy state then missing_param
      else exchange_and_store credentials code' state'
  | _, _ => missing_param
  end.

(** The guard of [/qr/:name], negated: the client's credentials are truthy
    and so is their [refresh_token]. *)
Definition isAuthorized (c : client) : bool :=
  Json.truthy (credentials c)
  && Js.truthy (Js.field (credentials c) "refresh_token").

Definition query_of : query :=
  match v with
  | Part000 => Mailbox.query_part_000
  | Part001 => Mailbox.query_part_001
  end.

Definition not_authenticated (userName : string) : string :=
  "User " +:+ String "034"%char userName +:+ String "034"%char
    " is not authenticated. Please visit /authenticate/"
    +:+ userName +:+ " first.".

(** [/qr/:name] *)
Definition qr_handler (credentials : json) (userName : string)
  : M response :=
  try_catch
    (oAuth2Client <- createOAuth2ClientForUser credentials userName ;;
     if negb (isAuthorized oAuth2Client) then
       ret (Reply 400 (Envelope (not_authenticated userName) None))
     else
       emails <- Mailbox.getLatestEmails E query_of oAuth2Client userName ;;
       ret (Reply 200 (Emails emails)))
    (fun error =>
       console_error "Error in /qr/:name:" (Some error) ;;
       ret (Reply 500 (Envelope "Failed to fetch emails"
                                (Some (message_of E error))))).

(** The Credential Store of the specification, as the code realizes it:
    [save] is the write of the callback, [load] the read of the factory. *)
Definition save (userIdentity : string) (grant : json) : M unit :=
  writeFile (getTokenPathForUser userIdentity) (stringify E 2 grant).

Definition load (app : json) (userIdentity : string) : M json :=
  c <- createOAuth2ClientForUser app userIdentity ;;
  ret (credentials c).

(** A request to one of the three routes: [req.params.name] of
    [/authenticate/:name] and [/qr/:name], [req.query.code] and
    [req.query.state] of [/oauth2callback]. *)
Inductive request :=
| Authenticate (name : string)
| Callback (code state : option string)
| Qr (name : string).

(** The route table. *)
Definition handle (credentials : json) (r : request) : M response :=
  match r with
  | Authenticate name => authenticate_handler credentials name
  | Callback code state => oauth2callback credentials code state
  | Qr name => qr_handler credentials name
  end.

(** The server after a run of requests, oldest first, each handled to its
    end before the next. *)
Fixpoint serve (credentials : json) (rs : list request) (w : world)
  : world :=
  match rs with
  | [] => w
  | r :: rest => serve credentials rest (snd (handle credentials r w))
  end.

End Program.

End PerUser.

(** ** The single-cache variant: [server.js] *)

Module SingleCache.

Section Program.

Variable E : Env.

Definition SCOPES : list string :=
  ["https://www.googleapis.com/auth/gmail.readonly"].

Definition TOKEN_PATH : string := Path.join (dirname E) "token.json".

Definition CREDENTIALS_PATH : string :=
  Path.join (dirname E) "credentials.json".

Definition loadSavedCredentialsIfExist : M (option client) :=
  try_catch
    (content <- readFile TOKEN_PATH ;;
     credentials <- lift (Json.parse content) ;;
     emit (EvFromJSON credentials) ;;
     c <- lift (fromJSON E credentials) ;;
     ret (Some c))
    (fun err => ret None).

(** The object literal handed to [JSON.stringify]; a member whose value is
    [undefined] is left out of the text. *)
Definition payload_of (key : json) (c : client) : json :=
  let opt (k : string) (x : option json) :=
    match x with
    | Some j => [(k, j)]
    | None => []
    end in
  JObject
    ([("type", JString "authorized_user")]
       ++ opt "client_id" (Js.field key "client_id")
       ++ opt "client_secret" (Js.field key "client_secret")
       ++ opt "refresh_token" (Js.field (credentials c) "refresh_token")).

Definition saveCredentials (c : client) : M unit :=
  content <- readFile CREDENTIALS_PATH ;;
  keys <- lift (Json.parse content) ;;
  match keys with
  | JNull => throw TypeError
  | _ =>
      let installed := Js.field keys "installed" in
      let key :=
        if Js.truthy installed then installed else Js.field keys "web" in
      match key with
      | None | Some JNull => throw TypeError
      | Some k => writeFile TOKEN_PATH (stringify E 0 (payload_of k c))
      end
  end.

Definition getAuthClient : M client :=
  authClient <- get_authClient ;;
  match authClient with
  | Some c => ret c
  | None =>
      saved <- loadSavedCredentialsIfExist ;;
      c <- match saved with
           | Some c => ret c
           | None =>
               emit EvAuthenticate ;;
               c <- lift (authenticate E) ;;
               (if Json.truthy (credentials c) then saveCredentials c
                else ret tt) ;;
               ret c
           end ;;
      set_authClient c ;;
      ret c
  end.

(** [/qr/:name] *)
Definition qr_handler (name : string) : M response :=
  try_catch
    (auth <- getAuthClient ;;
     emails <- Mailbox.getLatestEmails E Mailbox.query_server_js auth name ;;
     if Nat.eqb (length emails) 0 then ret (Reply 200 (Emails []))
     else ret (Reply 200 (Emails emails)))
    (fun error =>
       console_error "Error fetching emails:" (Some error) ;;
       ret (Reply 500 (Envelope "Failed to fetch emails"
                                (Some (message_of E error))))).

(** The server after a run of [/qr/:name] requests, one per name. *)
Fixpoint serve (names : list string) (w : world) : world :=
  match names with
  | [] => w
  | name :: rest => serve rest (snd (qr_handler name w))
  end.

End Program.

End SingleCache.

(** ** Reading a trace *)

Module Trace.

(** A read or a write of the file system. *)
Definition is_store (e : event) : bool :=
  match e with
  | EvReadFile _ | EvWriteFile _ _ => true
  | _ => false
  end.

Definition is_write (e : event) : bool :=
  match e with
  | EvWriteFile _ _ => true
  | _ => false
  end.

(** A call of the provider's token endpoint. *)
Definition is_exchange (e : event) : bool :=
  match e with
  | EvGetToken _ _ => true
  | _ => false
  end.

(** A call of the Mailbox Query Service, with the client it is made with. *)
Definition mailbox_client (e : event) : option client :=
  match e with
  | EvGmailList auth _ _ | EvGmailGet auth _ => Some auth
  | _ => None
  end.

(** An event that is no mailbox call, or one made with [auth]. *)
Definition made_with (auth : client) (e : event) : Prop :=
  match mailbox_client e with
  | Some a => a = auth
  | None => True
  end.

(** What a run of the mailbox code may change: it adds to the trace, every
    mailbox call it adds being made with [auth], and leaves the file system
    and the cached client alone. *)
Definition quiet (auth : client) (w w' : world) : Prop :=
  w_fs w' = w_fs w
  /\ w_authClient w' = w_authClient w
  /\ exists new, w_trace w' = w_trace w ++ new
                 /\ Forall (made_with auth) new.


End Trace.

(** ** A concrete environment, to run the program on *)

Module Demo.

Definition quote : string := String "034"%char "".

Definition quoted (s : string) : string := quote +:+ s +:+ quote.

(** A printer for flat objects of plain strings. *)
Definition print_member (kv : string * json) : string :=
  quoted (fst kv) +:+ ":"
    +:+ match snd kv with
        | JString s => quoted s
        | _ => "null"
        end.

Definition print (indent : nat) (v : json) : string :=
  match v with
  | JObject kvs => "{" +:+ Str.join_with "," (map print_member kvs) +:+ "}"
  | JString s => quoted s
  | _ => "null"
  end.

Definition registration : json :=
  JObject
    [("web",
      JObject
        [("client_id", JString "app-id");
         ("client_secret", JString "app-secret");
         ("redirect_uris",
          JArray [JString "http://localhost:5001/oauth2callback"])])].

(** The text of a well-formed [credentials.json]. *)
Definition credentials_json : string :=
  "{" +:+ quoted "web" +:+ ": {"
    +:+ quoted "client_id" +:+ ": " +:+ quoted "app-id" +:+ ", "
    +:+ quoted "client_secret" +:+ ": " +:+ quoted "app-secret" +:+ ", "
    +:+ quoted "redirect_uris" +:+ ": ["
    +:+ quoted "http://localhost:5001/oauth2callback" +:+ "]}}".

Definition grant (refresh : string) : json :=
  JObject [("access_token", JString "at");
           ("refresh_token", JString refresh)].

Definition a_client (tokens : json) : client :=
  {| client_id := Some (JString "app-id");
     client_secret := Some (JString "app-secret");
     redirect_uri := Some (JString "http://localhost:5001/oauth2callback");
     credentials := tokens |}.

Definition inbox : list message :=
  [ {| msg_id := "m1" |}; {| msg_id := "m2" |}; {| msg_id := "m3" |} ].

Definition headers_of (id : string) : list header :=
  [ {| name := "Subject"; value := "visit " +:+ id |};
    {| name := "Date"; value := "Mon, 02 Nov 2026 09:00:00 +0900" |} ].

Fixpoint tally (n : nat) : string :=
  match n with
  | O => ""
  | S k => String "i"%char (tally k)
  end.

Definition env : Env :=
  {| dirname := "/srv/app";
     generateAuthUrl := fun c opts =>
       Ok ("https://accounts.google.com/o/oauth2/v2/auth?access_type="
             +:+ access_type opts +:+ "&prompt=" +:+ prompt opts
             +:+ "&state=" +:+ state opts);
     getToken := fun c code =>
       if String.eqb code "good-code" then Ok (grant "fresh")
       else Throw (ProviderError "invalid_grant");
     authenticate := Ok (a_client (grant "local"));
     fromJSON := fun v => Ok (a_client v);
     gmail_list := fun auth q n => Ok (Some inbox);
     gmail_get := fun auth id =>
       if String.eqb id "m2" then Throw (ProviderError "backend error")
       else Ok (headers_of id);
     uuid := fun n => "uuid-" +:+ tally n;
     toISOString := fun text =>
       if Str.is_empty text then None else Some "2026-11-02T00:00:00.000Z";
     stringify := print;
     message_of := fun e =>
       match e with
       | ProviderError m => m
       | _ => "error"
       end |}.

Definition world_of (fs : filesystem) (cache : option client) : world :=
  {| w_fs := fs; w_authClient := cache; w_uuids := 0; w_trace := [] |}.

(** The application directory with its configuration, and the grant of
    user [b]. *)
Definition disk : filesystem :=
  <[ "/srv/app/token-b.json" := File (print 2 (grant "of-b")) true true ]>
    (<[ "/srv/app/credentials.json" := File credentials_json true true ]>
       (<[ "/srv/app" := Dir true ]> ∅)).

(** The same, the grant of [b] being unreadable. *)
Definition disk_locked : filesystem :=
  <[ "/srv/app/token-b.json" := File (print 2 (grant "of-b")) false true ]>
    disk.

(** The same, the grant of [b] being cut short. *)
Definition disk_corrupt : filesystem :=
  <[ "/srv/app/token-b.json" := File "{" true true ]> disk.

End Demo.

(** ** Reading the result of a batch *)

Module Batch.

(** The deep link [getLatestEmails] gives a message. *)
Definition link (m : message) : string :=
  "https://mail.google.com/mail/u/0/#inbox/" +:+ msg_id m.

(** Whether the inner [try] gets through a message: its metadata is fetched
    and its [Date] header, when it has one, is a valid date. *)
Definition fetchable (E : Env) (auth : client) (m : message) : bool :=
  match gmail_get E auth (msg_id m) with
  | Ok headers =>
      match Mailbox.date_of E headers with
      | Ok _ => true
      | Throw _ => false
      end
  | Throw _ => false
  end.

(** A record under another user name. *)
Definition relabel (userName : string) (r : email) : email :=
  {| id := id r; date := date r; place := place r; person := userName;
     mail := mail r; qr_data := qr_data r; subject := subject r |}.

(** The message identifiers a trace fetches metadata for, in order. *)
Fixpoint fetched (evs : list event) : list string :=
  match evs with
  | [] => []
  | EvGmailGet _ id :: rest => id :: fetched rest
  | _ :: rest => fetched rest
  end.

(** How many listing calls a trace makes. *)
Fixpoint listings (evs : list event) : nat :=
  match evs with
  | [] => 0
  | EvGmailList _ _ _ :: rest => S (listings rest)
  | _ :: rest => listings rest
  end.

(** A run of the batch, its records under another user name. *)
Definition relabelled (userName : string)
           (run : result (list email) * world) : result (list email) * world :=
  match run with
  | (Ok emails, w) => (Ok (map (relabel userName) emails), w)
  | (Throw e, w) => (Throw e, w)
  end.

End Batch.

(** ** Reading a run of requests *)

Module History.






End History.

(** ** More file systems to run the program on *)

Module Fixture.


(** The application directory, its [credentials.json] holding an object
    without [web] or [installed]. *)
Definition disk_no_registration : filesystem :=
  <[ "/srv/app/credentials.json" := File "{}" true true ]>
    (<[ "/srv/app" := Dir true ]> ∅).

(** The demo disk, the grant of [b] being read-only. *)
Definition disk_read_only : filesystem :=
  <[ "/srv/app/token-b.json" :=
       File (Demo.print 2 (Demo.grant "of-b")) true false ]> Demo.disk.

(** The demo disk with a saved [token.json] for [server.js]. *)
Definition disk_saved : filesystem :=
  <[ "/srv/app/token.json" :=
       File (Demo.print 0 (Demo.grant "saved")) true true ]> Demo.disk.

(** An entry of [credentials.json]. *)
Definition entry (client : string) : json :=
  JObject [("client_id", JString client);
           ("redirect_uris", JArray [JString "http://localhost/cb"])].

Definition entry_json (client : string) : string :=
  "{" +:+ Demo.quoted "client_id" +:+ ":" +:+ Demo.quoted client +:+ ","
    +:+ Demo.quoted "redirect_uris" +:+ ":["
    +:+ Demo.quoted "http://localhost/cb" +:+ "]}".

(** A [credentials.json] with both a [web] and an [installed] entry. *)
Definition both_entries : json :=
  JObject [("web", entry "web-id"); ("installed", entry "installed-id")].

Definition both_entries_json : string :=
  "{" +:+ Demo.quoted "web" +:+ ":" +:+ entry_json "web-id" +:+ ","
    +:+ Demo.quoted "installed" +:+ ":" +:+ entry_json "installed-id"
    +:+ "}".

Definition disk_both_entries : filesystem :=
  <[ "/srv/app/credentials.json" := File both_entries_json true true ]>
    (<[ "/srv/app" := Dir true ]> ∅).

End Fixture.

(** * Properties *)

(** ** Strings and paths *)

#[local] Arguments String.append !s1 s2.

Section StringFacts.

Lemma length_append (a b : string) :
  String.length (a +:+ b) = String.length a + String.length b.
Proof. induction a as [|c a IH]; simpl; [reflexivity | now rewrite IH]. Qed.

Lemma append_assoc (a b c : string) : (a +:+ b) +:+ c = a +:+ b +:+ c.
Proof. induction a as [|x a IH]; simpl; [reflexivity | now rewrite IH]. Qed.

Lemma append_empty_r (a : string) : a +:+ "" = a.
Proof. induction a as [|x a IH]; simpl; [reflexivity | now rewrite IH]. Qed.

Lemma append_inv_head (p a b : string) : p +:+ a = p +:+ b -> a = b.
Proof.
  induction p as [|x p IH]; simpl; intros H; [exact H |].
  injection H as H. now apply IH.
Qed.

Lemma append_inv_tail (a b s : string) : a +:+ s = b +:+ s -> a = b.
Proof.
  revert b. induction a as [|x a IH]; intros [|y b] H; simpl in H.
  - reflexivity.
  - apply (f_equal String.length) in H. simpl in H.
    rewrite length_append in H. lia.
  - apply (f_equal String.length) in H. simpl in H.
    rewrite length_append in H. lia.
  - injection H as -> H. f_equal. now apply IH.
Qed.

Lemma is_empty_append (a b : string) :
  Str.is_empty (a +:+ b) = Str.is_empty a && Str.is_empty b.
Proof. destruct a; reflexivity. Qed.

Lemma last_is_append (c : ascii) (a b : string) :
  Str.is_empty b = false -> Str.last_is c (a +:+ b) = Str.last_is c b.
Proof.
  intros Hb. induction a as [|x a IH]; simpl; [reflexivity |].
  rewrite IH. destruct (a +:+ b) eqn:Hab; [| reflexivity].
  apply (f_equal Str.is_empty) in Hab. rewrite is_empty_append, Hb in Hab.
  destruct (Str.is_empty a); discriminate.
Qed.

Lemma split_on_not_nil (c : ascii) (s : string) : Str.split_on c s <> [].
Proof.
  destruct s as [|x s]; simpl; [discriminate |].
  destruct (Ascii.eqb x c); [discriminate |].
  destruct (Str.split_on c s); discriminate.
Qed.

Lemma split_on_append (c : ascii) (a b : string) :
  Str.split_on c (a +:+ String c b) = Str.split_on c a ++ Str.split_on c b.
Proof.
  induction a as [|x a IH]; simpl.
  - now rewrite Ascii.eqb_refl.
  - destruct (Ascii.eqb x c); [now rewrite IH |].
    rewrite IH. destruct (Str.split_on c a) eqn:Ha; [| reflexivity].
    now apply split_on_not_nil in Ha.
Qed.

Lemma split_on_no_sep (c : ascii) (s : string) :
  Str.contains c s = false -> Str.split_on c s = [s].
Proof.
  induction s as [|x s IH]; simpl; [reflexivity |].
  intros H. apply orb_false_iff in H as [Hx Hs].
  rewrite Hx, (IH Hs). reflexivity.
Qed.

Lemma join_split (c : ascii) (s : string) :
  Str.join_with (String c "") (Str.split_on c s) = s.
Proof.
  induction s as [|x s IH]; simpl; [reflexivity |].
  destruct (Ascii.eqb x c) eqn:Hx.
  - apply Ascii.eqb_eq in Hx as ->.
    destruct (Str.split_on c s) eqn:Hs; [now apply split_on_not_nil in Hs |].
    simpl. now rewrite <- IH.
  - destruct (Str.split_on c s) as [|seg segs] eqn:Hs;
      [now apply split_on_not_nil in Hs |].
    rewrite <- IH. destruct segs; reflexivity.
Qed.

Lemma join_with_app (sep : string) (xs ys : list string) :
  xs <> [] -> ys <> [] ->
  Str.join_with sep (xs ++ ys)
  = Str.join_with sep xs +:+ sep +:+ Str.join_with sep ys.
Proof.
  intros Hx Hy. induction xs as [|x xs IH]; [congruence |].
  destruct xs as [|x' xs].
  - simpl. destruct ys; [congruence | reflexivity].
  - change (x +:+ sep +:+ Str.join_with sep ((x' :: xs) ++ ys)
            = (x +:+ sep +:+ Str.join_with sep (x' :: xs))
                +:+ sep +:+ Str.join_with sep ys).
    rewrite IH by discriminate. now rewrite !append_assoc.
Qed.

Lemma plain_segment_not_empty (s : string) :
  Path.plain_segment s = true -> Str.is_empty s = false.
Proof. destruct s; [discriminate | reflexivity]. Qed.

Lemma join_plain_not_empty (sep : string) (xs ys : list string) :
  ys <> [] -> forallb Path.plain_segment ys = true ->
  Str.is_empty (Str.join_with sep (xs ++ ys)) = false.
Proof.
  intros Hy Hp. induction xs as [|x xs IH]; simpl.
  - destruct ys as [|y ys]; [congruence |]. simpl in Hp.
    apply andb_true_iff in Hp as [Hp _].
    apply plain_segment_not_empty in Hp.
    destruct ys; simpl; [exact Hp |].
    rewrite is_empty_append, Hp. reflexivity.
  - destruct (xs ++ ys) eqn:Hxy.
    + apply app_eq_nil in Hxy as [_ ->]. congruence.
    + rewrite !is_empty_append, IH. now rewrite !andb_false_r.
Qed.

(** Plain segments pass through [normalizeString] untouched. *)
Lemma normalizeString_plain (allow : bool) (ys : list string) :
  forallb Path.plain_segment ys = true ->
  forall res, Path.normalizeString allow res ys = rev res ++ ys.
Proof.
  induction ys as [|y ys IH]; simpl; intros Hp res.
  - now rewrite app_nil_r.
  - apply andb_true_iff in Hp as [Hy Hp]. unfold Path.plain_segment in Hy.
    apply negb_true_iff in Hy.
    destruct (String.eqb y "" || String.eqb y ".") eqn:H1.
    + discriminate Hy.
    + simpl in Hy. rewrite Hy, (IH Hp). simpl. now rewrite <- app_assoc.
Qed.

Lemma normalizeString_app_plain (allow : bool) (xs ys : list string) :
  forallb Path.plain_segment ys = true ->
  forall res,
    Path.normalizeString allow res (xs ++ ys)
    = Path.normalizeString allow res xs ++ ys.
Proof.
  intros Hp. induction xs as [|x xs IH]; intros res.
  - simpl. now apply normalizeString_plain.
  - simpl.
    destruct (String.eqb x "" || String.eqb x "."); [apply IH |].
    destruct (String.eqb x ".."); [| apply IH].
    destruct res as [|top below]; [apply IH |].
    destruct (String.eqb top ".."); apply IH.
Qed.

End StringFacts.

Section PathFacts.

Lemma plain_not_absolute (f : string) :
  Path.plain f = true ->
  Str.first_is Path.sep f = false /\ Str.is_empty f = false.
Proof.
  unfold Path.plain. destruct f as [|c f]; simpl; [discriminate |].
  destruct (Ascii.eqb c Path.sep); [discriminate | auto].
Qed.

(** Joining a directory and a plain relative path only prefixes the path. *)
Lemma join_plain (d : string) :
  exists p, forall f,
    Path.plain f = true -> Str.last_is Path.sep f = false ->
    Path.join d f = p +:+ f.
Proof.
  destruct d as [|c d].
  - exists "". intros f Hp Hl.
    destruct (plain_not_absolute f Hp) as [Ha He].
    unfold Path.join. simpl. rewrite He. unfold Path.normalize.
    rewrite He, Ha, Hl. simpl negb.
    rewrite (normalizeString_plain true _ Hp []). simpl rev. simpl app.
    change "/" with (String Path.sep ""). rewrite join_split, He.
    reflexivity.
  - set (abs := Str.first_is Path.sep (String c d)).
    set (kept := Path.normalizeString (negb abs) []
                   (Str.split_on Path.sep (String c d))).
    exists ((if abs then "/" else "")
              +:+ match kept with
                  | [] => ""
                  | _ :: _ => Str.join_with "/" kept +:+ "/"
                  end).
    intros f Hp Hl.
    destruct (plain_not_absolute f Hp) as [Ha He].
    unfold Path.join. rewrite He. simpl Str.is_empty. cbv iota.
    change (String c d +:+ "/" +:+ f) with (String c d +:+ String Path.sep f).
    assert (E1 : Str.is_empty (String c d +:+ String Path.sep f) = false)
      by reflexivity.
    assert (E2 : Str.first_is Path.sep (String c d +:+ String Path.sep f)
                 = abs) by reflexivity.
    assert (E3 : Str.last_is Path.sep (String c d +:+ String Path.sep f)
                 = false).
    { rewrite last_is_append by reflexivity.
      destruct f; [discriminate | exact Hl]. }
    assert (E4 : Path.normalizeString (negb abs) []
                   (Str.split_on Path.sep
                      (String c d +:+ String Path.sep f))
                 = kept ++ Str.split_on Path.sep f).
    { rewrite split_on_append.
      apply (normalizeString_app_plain _ _ _ Hp []). }
    assert (E5 : Str.join_with "/" (kept ++ Str.split_on Path.sep f)
                 = match kept with
                   | [] => ""
                   | _ :: _ => Str.join_with "/" kept +:+ "/"
                   end +:+ f).
    { destruct kept as [|k ks] eqn:Hk.
      - simpl app. change "/" with (String Path.sep "").
        now rewrite join_split.
      - rewrite join_with_app by (discriminate || apply split_on_not_nil).
        change (Str.join_with "/" (Str.split_on Path.sep f))
          with (Str.join_with (String Path.sep "") (Str.split_on Path.sep f)).
        rewrite join_split. now rewrite !append_assoc. }
    assert (E6 : Str.is_empty
                   (Str.join_with "/" (kept ++ Str.split_on Path.sep f))
                 = false)
      by exact (join_plain_not_empty "/" kept _ (split_on_not_nil _ _) Hp).
    generalize dependent (String c d +:+ String Path.sep f). intros s.
    intros E1 E2 E3 E4. unfold Path.normalize.
    rewrite E1, E2, E3, E4, E6, E5.
    destruct abs; [| reflexivity].
    now rewrite append_assoc.
Qed.

Lemma token_file_plain_of_no_sep (name : string) :
  Str.contains Path.sep name = false -> PerUser.plain_identity name = true.
Proof.
  intros H. unfold PerUser.plain_identity, Path.plain.
  rewrite split_on_no_sep.
  - reflexivity.
  - simpl. clear -H. induction name as [|c s IH]; simpl in *; [reflexivity |].
    apply orb_false_iff in H as [-> Hs]. now apply IH.
Qed.

Lemma token_file_last (name : string) :
  Str.last_is Path.sep ("token-" +:+ name +:+ ".json") = false.
Proof.
  rewrite (last_is_append _ "token-").
  - now rewrite last_is_append.
  - rewrite is_empty_append. apply andb_false_r.
Qed.

(** On plain identities the key derivation is injective. *)
Lemma getTokenPathForUser_inj (E : Env) (u1 u2 : string) :
  PerUser.plain_identity u1 = true -> PerUser.plain_identity u2 = true ->
  PerUser.getTokenPathForUser E u1 = PerUser.getTokenPathForUser E u2 ->
  u1 = u2.
Proof.
  intros H1 H2. unfold PerUser.getTokenPathForUser.
  destruct (join_plain (dirname E)) as [p Hp].
  rewrite (Hp _ H1 (token_file_last u1)), (Hp _ H2 (token_file_last u2)).
  intros H. apply append_inv_head in H. apply append_inv_head in H.
  now apply append_inv_tail in H.
Qed.

End PathFacts.

(** ** [JSON.parse]: the fuel is enough *)

Section JsonFacts.

Lemma starts_length (c : ascii) (s r : string) :
  Json.starts c s = Some r -> String.length s = S (String.length r).
Proof.
  destruct s as [|c' s]; simpl; [discriminate |].
  destruct (Ascii.eqb c' c); [| discriminate]. now intros [= ->].
Qed.

Lemma skip_ws_length (s : string) :
  String.length (Json.skip_ws s) <= String.length s.
Proof.
  induction s as [|c s IH]; simpl; [lia |].
  destruct (Json.is_ws c); simpl; lia.
Qed.

Lemma parse_chars_length (n : nat) :
  forall s t r,
    String.length s <= n ->
    Json.parse_chars s = Some (t, r) -> String.length r < String.length s.
Proof.
  induction n as [|n IH]; intros s t r Hn H.
  - destruct s; [discriminate | simpl in Hn; lia].
  - destruct s as [|c s]; [discriminate |]. simpl in Hn. simpl in H.
    destruct (Ascii.eqb c "034"%char); [injection H as _ <-; simpl; lia |].
    destruct (Ascii.eqb c "\"%char).
    + destruct s as [|e s]; [discriminate |]. simpl in Hn.
      assert (Hsimple : forall a : ascii,
                 match Json.parse_chars s with
                 | Some (t0, r0) => Some (String a t0, r0)
                 | None => None
                 end = Some (t, r) ->
                 String.length r < String.length (String c (String e s))).
      { intros a Hu.
        destruct (Json.parse_chars s) as [[t0 r0]|] eqn:Hs; [| discriminate].
        injection Hu as _ <-. apply IH in Hs; [simpl; lia | lia]. }
      repeat match type of H with
             | (if ?b then _ else _) = _ =>
                 destruct b; [now apply Hsimple in H |]
             end.
      destruct (Ascii.eqb e "u"%char); [| discriminate].
      destruct s as [|h1 [|h2 [|h3 [|h4 s]]]]; try discriminate.
      destruct (Json.hex_of h1); [| discriminate].
      destruct (Json.hex_of h2); [| discriminate].
      destruct (Json.hex_of h3); [| discriminate].
      destruct (Json.hex_of h4); [| discriminate].
      destruct (Json.parse_chars s) as [[t0 r0]|] eqn:Hs; [| discriminate].
      injection H as _ <-. simpl in Hn.
      apply IH in Hs; [simpl; lia | lia].
    + destruct (N_of_ascii c <? 32)%N; [discriminate |].
      destruct (Json.parse_chars s) as [[t0 r0]|] eqn:Hs; [| discriminate].
      injection H as _ <-. apply IH in Hs; [simpl; lia | lia].
Qed.

Lemma take_digits_length (s : string) :
  forall acc len a len' r,
    Json.take_digits acc len s = (a, len', r) ->
    String.length r + len' = String.length s + len.
Proof.
  induction s as [|c s IH]; intros acc len a len' r H; simpl in H.
  - injection H as _ <- <-. reflexivity.
  - destruct (Json.digit_of c).
    + apply IH in H. simpl. lia.
    + injection H as _ <- <-. reflexivity.
Qed.

Lemma parse_int_length (s r : string) (n : N) :
  Json.parse_int s = Some (n, r) -> String.length r < String.length s.
Proof.
  unfold Json.parse_int. intros H.
  destruct (Json.starts "0" s) as [r0|] eqn:H0.
  - injection H as _ <-. apply starts_length in H0. lia.
  - destruct (Json.take_digits 0 0 s) as [[a len] r'] eqn:Ht.
    apply take_digits_length in Ht.
    destruct len; [discriminate |]. injection H as _ <-. lia.
Qed.

Lemma parse_fraction_length (int : N) (s r : string) (m : N) (k : nat) :
  Json.parse_fraction int s = Some (m, k, r) ->
  String.length r <= String.length s.
Proof.
  unfold Json.parse_fraction. intros H.
  destruct (Json.starts "." s) as [r0|] eqn:H0.
  - apply starts_length in H0.
    destruct (Json.take_digits int 0 r0) as [[a len] r'] eqn:Ht.
    apply take_digits_length in Ht.
    destruct len; [discriminate |]. injection H as _ _ <-. lia.
  - injection H as _ _ <-. lia.
Qed.

Lemma parse_exponent_length (s r : string) (e : Z) :
  Json.parse_exponent s = Some (e, r) -> String.length r <= String.length s.
Proof.
  unfold Json.parse_exponent. intros H.
  destruct (match Json.starts "e" s with
            | Some r0 => Some r0
            | None => Json.starts "E" s
            end) as [rest|] eqn:He; [| injection H as _ <-; lia].
  assert (Hrest : String.length s = S (String.length rest)).
  { destruct (Json.starts "e" s) eqn:H1.
    - injection He as ->. now apply starts_length in H1.
    - now apply starts_length in He. }
  destruct (match Json.starts "+" rest with
            | Some r0 => (1%Z, r0)
            | None =>
                match Json.starts "-" rest with
                | Some r0 => ((-1)%Z, r0)
                | None => (1%Z, rest)
                end
            end) as [sign rest1] eqn:Hs.
  assert (Hrest1 : String.length rest1 <= String.length rest).
  { destruct (Json.starts "+" rest) eqn:H1.
    - injection Hs as _ <-. apply starts_length in H1. lia.
    - destruct (Json.starts "-" rest) eqn:H2.
      + injection Hs as _ <-. apply starts_length in H2. lia.
      + injection Hs as _ <-. lia. }
  destruct (Json.take_digits 0 0 rest1) as [[a len] r'] eqn:Ht.
  apply take_digits_length in Ht.
  destruct len; [discriminate |]. injection H as _ <-. lia.
Qed.

Lemma parse_number_length (s r : string) (v : json) :
  Json.parse_number s = Some (v, r) -> String.length r < String.length s.
Proof.
  unfold Json.parse_number. intros H.
  destruct (match Json.starts "-" s with
            | Some r0 => (true, r0)
            | None => (false, s)
            end) as [neg s1] eqn:Hneg.
  assert (H1 : String.length s1 <= String.length s).
  { destruct (Json.starts "-" s) eqn:Hm.
    - injection Hneg as _ <-. apply starts_length in Hm. lia.
    - injection Hneg as _ <-. lia. }
  destruct (Json.parse_int s1) as [[n s2]|] eqn:Hi; [| discriminate].
  apply parse_int_length in Hi.
  destruct (Json.parse_fraction n s2) as [[[m k] s3]|] eqn:Hf; [| discriminate].
  apply parse_fraction_length in Hf.
  destruct (Json.parse_exponent s3) as [[e s4]|] eqn:He; [| discriminate].
  apply parse_exponent_length in He. injection H as _ <-. lia.
Qed.

Lemma expect_length (lit : string) :
  forall s r,
    Json.expect lit s = Some r ->
    String.length s = String.length lit + String.length r.
Proof.
  induction lit as [|c lit IH]; intros s r H; simpl in H.
  - now injection H as <-.
  - destruct (Json.starts c s) as [rest|] eqn:Hs; [| discriminate].
    apply starts_length in Hs. apply IH in H. simpl. lia.
Qed.

Lemma parse_literal_length (lit : string) (v v' : json) (s r : string) :
  lit <> "" ->
  Json.parse_literal lit v s = Some (v', r) ->
  String.length r < String.length s.
Proof.
  unfold Json.parse_literal. intros Hne H.
  destruct (Json.expect lit s) as [rest|] eqn:He; [| discriminate].
  injection H as _ <-. apply expect_length in He.
  destruct lit; [congruence | simpl in He; lia].
Qed.

Lemma parse_scalar_length (s r : string) (v : json) :
  Json.parse_scalar s = Some (v, r) -> String.length r < String.length s.
Proof.
  unfold Json.parse_scalar. intros H.
  destruct (Json.starts "034" s) as [rest|] eqn:Hq.
  - apply starts_length in Hq.
    destruct (Json.parse_chars rest) as [[t r0]|] eqn:Hc; [| discriminate].
    injection H as _ <-.
    apply (parse_chars_length _ _ _ _ (Nat.le_refl _)) in Hc. lia.
  - destruct (Json.parse_literal "true" (JBool true) s) as [x|] eqn:Ht.
    { injection H as ->. now apply parse_literal_length in Ht. }
    destruct (Json.parse_literal "false" (JBool false) s) as [x|] eqn:Hf.
    { injection H as ->. now apply parse_literal_length in Hf. }
    destruct (Json.parse_literal "null" JNull s) as [x|] eqn:Hn.
    { injection H as ->. now apply parse_literal_length in Hn. }
    now apply parse_number_length in H.
Qed.

Lemma parse_value_S (f : nat) (s : string) :
  Json.parse_value (S f) s
  = match Json.starts "[" (Json.skip_ws s) with
    | Some rest =>
        match Json.starts "]" (Json.skip_ws rest) with
        | Some r => Some (JArray [], r)
        | None => Json.parse_elements f rest []
        end
    | None =>
        match Json.starts "{" (Json.skip_ws s) with
        | Some rest =>
            match Json.starts "}" (Json.skip_ws rest) with
            | Some r => Some (JObject [], r)
            | None => Json.parse_members f rest []
            end
        | None => Json.parse_scalar (Json.skip_ws s)
        end
    end.
Proof. reflexivity. Qed.

Lemma parse_elements_S (f : nat) (s : string) (acc : list json) :
  Json.parse_elements (S f) s acc
  = match Json.parse_value f s with
    | None => None
    | Some (v, r) =>
        match Json.starts "," (Json.skip_ws r) with
        | Some r' => Json.parse_elements f r' (v :: acc)
        | None =>
            match Json.starts "]" (Json.skip_ws r) with
            | Some r' => Some (JArray (rev (v :: acc)), r')
            | None => None
            end
        end
    end.
Proof. reflexivity. Qed.

Lemma parse_members_S (f : nat) (s : string) (acc : list (string * json)) :
  Json.parse_members (S f) s acc
  = match Json.starts "034" (Json.skip_ws s) with
    | None => None
    | Some r0 =>
        match Json.parse_chars r0 with
        | None => None
        | Some (k, r1) =>
            match Json.starts ":" (Json.skip_ws r1) with
            | None => None
            | Some r2 =>
                match Json.parse_value f r2 with
                | None => None
                | Some (v, r3) =>
                    match Json.starts "," (Json.skip_ws r3) with
                    | Some r4 => Json.parse_members f r4 ((k, v) :: acc)
                    | None =>
                        match Json.starts "}" (Json.skip_ws r3) with
                        | Some r4 =>
                            Some (JObject (rev ((k, v) :: acc)), r4)
                        | None => None
                        end
                    end
                end
            end
        end
    end.
Proof. reflexivity. Qed.

Ltac measure :=
  repeat match goal with
         | H : Json.starts _ _ = Some _ |- _ => apply starts_length in H
         | H : Json.parse_scalar _ = Some _ |- _ =>
             apply parse_scalar_length in H
         | H : Json.parse_chars _ = Some _ |- _ =>
             apply (parse_chars_length _ _ _ _ (Nat.le_refl _)) in H
         end;
  repeat match goal with
         | H : context [Json.skip_ws ?s] |- _ =>
             lazymatch goal with
             | _ : String.length (Json.skip_ws s) <= String.length s |- _ =>
                 fail
             | _ => pose proof (skip_ws_length s)
             end
         end;
  lia.

(** Every parser consumes at least one character. *)
Lemma parsers_consume (f : nat) :
  (forall s v r,
      Json.parse_value f s = Some (v, r) ->
      String.length r < String.length s)
  /\ (forall s acc v r,
        Json.parse_elements f s acc = Some (v, r) ->
        String.length r < String.length s)
  /\ (forall s acc v r,
        Json.parse_members f s acc = Some (v, r) ->
        String.length r < String.length s).
Proof.
  induction f as [|f (IHv & IHe & IHm)]; [repeat split; discriminate |].
  repeat split.
  - intros s v r H. rewrite parse_value_S in H.
    destruct (Json.starts "[" (Json.skip_ws s)) as [rest|] eqn:Ha.
    { destruct (Json.starts "]" (Json.skip_ws rest)) as [r'|] eqn:Hb.
      - injection H as _ <-. measure.
      - apply IHe in H. measure. }
    destruct (Json.starts "{" (Json.skip_ws s)) as [rest|] eqn:Ho.
    { destruct (Json.starts "}" (Json.skip_ws rest)) as [r'|] eqn:Hb.
      - injection H as _ <-. measure.
      - apply IHm in H. measure. }
    measure.
  - intros s acc v r H. rewrite parse_elements_S in H.
    destruct (Json.parse_value f s) as [[v0 r0]|] eqn:Hv; [| discriminate].
    apply IHv in Hv.
    destruct (Json.starts "," (Json.skip_ws r0)) as [r'|] eqn:Hc.
    { apply IHe in H. measure. }
    destruct (Json.starts "]" (Json.skip_ws r0)) as [r'|] eqn:Hb;
      [| discriminate].
    injection H as _ <-. measure.
  - intros s acc v r H. rewrite parse_members_S in H.
    destruct (Json.starts "034" (Json.skip_ws s)) as [r0|] eqn:Hq;
      [| discriminate].
    destruct (Json.parse_chars r0) as [[k r1]|] eqn:Hk; [| discriminate].
    destruct (Json.starts ":" (Json.skip_ws r1)) as [r2|] eqn:Hcol;
      [| discriminate].
    destruct (Json.parse_value f r2) as [[v0 r3]|] eqn:Hv; [| discriminate].
    apply IHv in Hv.
    destruct (Json.starts "," (Json.skip_ws r3)) as [r4|] eqn:Hc.
    { apply IHm in H. measure. }
    destruct (Json.starts "}" (Json.skip_ws r3)) as [r4|] eqn:Hb;
      [| discriminate].
    injection H as _ <-. measure.
Qed.

(** More fuel changes no result. *)
Lemma parsers_mono (f : nat) :
  (forall s x, Json.parse_value f s = Some x ->
               Json.parse_value (S f) s = Some x)
  /\ (forall s acc x, Json.parse_elements f s acc = Some x ->
                      Json.parse_elements (S f) s acc = Some x)
  /\ (forall s acc x, Json.parse_members f s acc = Some x ->
                      Json.parse_members (S f) s acc = Some x).
Proof.
  induction f as [|f (IHv & IHe & IHm)]; [repeat split; discriminate |].
  repeat split.
  - intros s x H. rewrite parse_value_S in H. rewrite parse_value_S.
    destruct (Json.starts "[" (Json.skip_ws s)) as [rest|].
    { destruct (Json.starts "]" (Json.skip_ws rest)); [exact H | auto]. }
    destruct (Json.starts "{" (Json.skip_ws s)) as [rest|]; [| exact H].
    destruct (Json.starts "}" (Json.skip_ws rest)); [exact H | auto].
  - intros s acc x H. rewrite parse_elements_S in H.
    rewrite parse_elements_S.
    destruct (Json.parse_value f s) as [[v r]|] eqn:Hv; [| discriminate].
    rewrite (IHv _ _ Hv).
    destruct (Json.starts "," (Json.skip_ws r)); [auto | exact H].
  - intros s acc x H. rewrite parse_members_S in H. rewrite parse_members_S.
    destruct (Json.starts "034" (Json.skip_ws s)) as [r0|]; [| discriminate].
    destruct (Json.parse_chars r0) as [[k r1]|]; [| discriminate].
    destruct (Json.starts ":" (Json.skip_ws r1)) as [r2|]; [| discriminate].
    destruct (Json.parse_value f r2) as [[v r3]|] eqn:Hv; [| discriminate].
    rewrite (IHv _ _ Hv).
    destruct (Json.starts "," (Json.skip_ws r3)); [auto | exact H].
Qed.

(** Fuel proportional to the length of the text is enough. *)
Lemma parsers_enough (n : nat) :
  forall s,
    String.length s <= n ->
    (forall f x, Json.parse_value f s = Some x ->
                 Json.parse_value (S (2 * n)) s = Some x)
    /\ (forall f acc x, Json.parse_elements f s acc = Some x ->
                        Json.parse_elements (S (S (2 * n))) s acc = Some x)
    /\ (forall f acc x, Json.parse_members f s acc = Some x ->
                        Json.parse_members (S (S (2 * n))) s acc = Some x).
Proof.
  induction n as [|n IH]; intros s Hn.
  - assert (s = "") as -> by (destruct s; [reflexivity | simpl in Hn; lia]).
    assert (Hnone : forall f, Json.parse_value f "" = None)
      by (intros [|f]; reflexivity).
    repeat split.
    + intros f x H. now rewrite Hnone in H.
    + intros [|f] acc x H; [discriminate |].
      rewrite parse_elements_S, Hnone in H. discriminate.
    + intros [|f] acc x H; discriminate.
  - replace (2 * S n) with (S (S (2 * n))) by lia.
    assert (Hv : forall f x, Json.parse_value f s = Some x ->
                             Json.parse_value (S (S (S (2 * n)))) s = Some x).
    { intros [|f] x H; [discriminate |].
      rewrite parse_value_S in H. rewrite parse_value_S.
      destruct (Json.starts "[" (Json.skip_ws s)) as [rest|] eqn:Ha.
      { destruct (Json.starts "]" (Json.skip_ws rest)); [exact H |].
        assert (Hr : String.length rest <= n) by measure.
        exact (proj1 (proj2 (IH rest Hr)) _ _ _ H). }
      destruct (Json.starts "{" (Json.skip_ws s)) as [rest|] eqn:Ho;
        [| exact H].
      destruct (Json.starts "}" (Json.skip_ws rest)); [exact H |].
      assert (Hr : String.length rest <= n) by measure.
      exact (proj2 (proj2 (IH rest Hr)) _ _ _ H). }
    split; [exact Hv |]. split.
    + intros [|f] acc x H; [discriminate |].
      rewrite parse_elements_S in H. rewrite parse_elements_S.
      destruct (Json.parse_value f s) as [[v r]|] eqn:Hp; [| discriminate].
      rewrite (Hv _ _ Hp). destruct x as [v' r'].
      pose proof (proj1 (parsers_consume f) _ _ _ Hp) as Hlt.
      destruct (Json.starts "," (Json.skip_ws r)) as [r1|] eqn:Hc;
        [| exact H].
      assert (Hr : String.length r1 <= n) by measure.
      apply (proj1 (proj2 (parsers_mono _))).
      exact (proj1 (proj2 (IH r1 Hr)) _ _ _ H).
    + intros [|f] acc x H; [discriminate |].
      rewrite parse_members_S in H. rewrite parse_members_S.
      destruct (Json.starts "034" (Json.skip_ws s)) as [r0|] eqn:Hq;
        [| discriminate].
      destruct (Json.parse_chars r0) as [[k r1]|] eqn:Hk; [| discriminate].
      destruct (Json.starts ":" (Json.skip_ws r1)) as [r2|] eqn:Hcol;
        [| discriminate].
      destruct (Json.parse_value f r2) as [[v r3]|] eqn:Hp; [| discriminate].
      pose proof (proj1 (parsers_consume f) _ _ _ Hp) as Hlt.
      assert (Hr2 : String.length r2 <= n) by measure.
      rewrite (proj1 (parsers_mono _) _ _
                 (proj1 (parsers_mono _) _ _
                    (proj1 (IH r2 Hr2) _ _ Hp))).
      destruct (Json.starts "," (Json.skip_ws r3)) as [r4|] eqn:Hc;
        [| exact H].
      assert (Hr : String.length r4 <= n) by measure.
      apply (proj2 (proj2 (parsers_mono _))).
      exact (proj2 (proj2 (IH r4 Hr)) _ _ _ H).
Qed.

(** The fuel [JSON.parse] starts with never runs out: whatever some amount
    of fuel parses, that fuel parses. *)
Lemma parse_value_fuel (f : nat) (text : string) (x : json * string) :
  Json.parse_value f text = Some x ->
  Json.parse_value (2 * String.length text + 2) text = Some x.
Proof.
  intros H.
  replace (2 * String.length text + 2)
    with (S (S (2 * String.length text))) by lia.
  apply (proj1 (parsers_mono _)).
  exact (proj1 (parsers_enough _ text (Nat.le_refl _)) _ _ H).
Qed.

(** [JSON.parse] throws exactly on the texts that no amount of fuel parses
    as one value followed by white space only. *)
Lemma parse_throws_iff (text : string) :
  Json.parse text = Throw SyntaxError
  <-> forall f v r,
        Json.parse_value f text = Some (v, r) ->
        Str.is_empty (Json.skip_ws r) = false.
Proof.
  unfold Json.parse. split.
  - intros H f v r Hp. rewrite (parse_value_fuel _ _ _ Hp) in H.
    destruct (Str.is_empty (Json.skip_ws r)); [discriminate | reflexivity].
  - intros H.
    destruct (Json.parse_value (2 * String.length text + 2) text)
      as [[v r]|] eqn:Hp; [| reflexivity].
    now rewrite (H _ _ _ Hp).
Qed.

(** The text of a promise is not JSON, with any fuel. *)
Lemma promise_text_is_not_json (f : nat) :
  Json.parse_value f (Js.to_text Js.PendingPromise) = None.
Proof.
  destruct (Json.parse_value f (Js.to_text Js.PendingPromise)) as [x|] eqn:H;
    [| reflexivity].
  apply parse_value_fuel in H. vm_compute in H. discriminate.
Qed.

End JsonFacts.

(** ** Running the monad *)

Lemma record_nil (w : world) : record w [] = w.
Proof. destruct w. unfold record. simpl. now rewrite app_nil_r. Qed.

Lemma record_record (w : world) (a b : list event) :
  record (record w a) b = record w (a ++ b).
Proof. unfold record. simpl. now rewrite app_assoc. Qed.

Lemma emit_run (e : event) (w : world) : emit e w = (Ok tt, record w [e]).
Proof. reflexivity. Qed.

Ltac run_step :=
  unfold bind, try_catch, ret, throw, lift, readFile, writeFile, console_log,
    console_error, get_authClient, set_authClient, emit;
  simpl.

Ltac run := repeat progress run_step.

(** Two spellings of the same world. *)
Ltac same_world :=
  unfold record, with_fs; simpl; rewrite <- ?app_assoc; simpl; reflexivity.

(** ** The OAuth2 client factory *)

Section Factory.

Variable E : Env.

(** The factory fails only on an ill-shaped registration; otherwise it reads
    the token file once and returns the restored client. *)
Lemma createOAuth2ClientForUser_run (app : json) (name : string) (w : world) :
  PerUser.createOAuth2ClientForUser E app name w
  = match PerUser.new_client app with
    | Ok c =>
        (Ok (PerUser.restored E (w_fs w) c name),
         record w [EvReadFile (PerUser.getTokenPathForUser E name)])
    | Throw e => (Throw e, w)
    end.
Proof.
  unfold PerUser.createOAuth2ClientForUser, PerUser.restored. run.
  destruct (PerUser.new_client app) as [c|e]; [| reflexivity].
  destruct (Fs.readFile (w_fs w) (PerUser.getTokenPathForUser E name))
    as [text|e]; [| reflexivity].
  destruct (Json.parse text); reflexivity.
Qed.

Lemma new_client_credentials (app : json) (c : client) :
  PerUser.new_client app = Ok c -> credentials c = JObject [].
Proof.
  unfold PerUser.new_client. intros H.
  destruct app; try discriminate;
    repeat match type of H with
           | match ?x with _ => _ end = _ => destruct x; try discriminate
           end;
    injection H as <-; reflexivity.
Qed.

End Factory.

(** ** The Credential Store: loading *)

(** C6 (as the code has it): [load] never throws, whatever made the read
    fail.  With a well-shaped registration it returns the parsed grant when
    the token file can be read and parsed, and the empty default credentials
    in every other case: a missing file, a file that cannot be read
    (permission error), and a file whose text does not parse (corrupted
    content) are all treated as absence; nothing propagates to the caller. *)
Theorem load_treats_every_failure_as_absence
        (E : Env) (app : json) (u : string) (w : world) (c : client) :
  PerUser.new_client app = Ok c ->
  fst (PerUser.load E app u w)
  = Ok match Fs.readFile (w_fs w) (PerUser.getTokenPathForUser E u) with
       | Ok text =>
           match Json.parse text with
           | Ok grant => grant
           | Throw _ => JObject []
           end
       | Throw _ => JObject []
       end.
Proof.
  intros Hc. unfold PerUser.load, bind.
  rewrite createOAuth2ClientForUser_run, Hc. unfold ret, PerUser.restored.
  simpl. f_equal.
  destruct (Fs.readFile (w_fs w) (PerUser.getTokenPathForUser E u))
    as [text|e]; [| now apply new_client_credentials in Hc].
  destruct (Json.parse text); [reflexivity |].
  now apply new_client_credentials in Hc.
Qed.

Lemma load_treats_every_failure_as_absence_witness :
  PerUser.new_client Demo.registration = Ok (Demo.a_client (JObject []))
  /\ fst (PerUser.load Demo.env Demo.registration "b"
            (Demo.world_of Demo.disk_locked None))
     = Ok (JObject []).
Proof.
  split; [reflexivity |].
  exact (load_treats_every_failure_as_absence Demo.env Demo.registration "b"
           (Demo.world_of Demo.disk_locked None) _ eq_refl).
Defined.

(** C6 (as stated) fails: an unreadable token file and a corrupted one are
    not "does not exist" failures, yet [load] returns for them exactly what it
    returns for a user without a token file, and throws nothing. *)
Lemma load_swallows_permission_and_corruption :
  Fs.readFile Demo.disk_locked (PerUser.getTokenPathForUser Demo.env "b")
  = Throw (FsError EACCES "/srv/app/token-b.json")
  /\ (exists text,
        Fs.readFile Demo.disk_corrupt (PerUser.getTokenPathForUser Demo.env "b")
        = Ok text
        /\ Json.parse text = Throw SyntaxError)
  /\ Fs.readFile Demo.disk (PerUser.getTokenPathForUser Demo.env "nobody")
     = Throw (FsError ENOENT "/srv/app/token-nobody.json")
  /\ fst (PerUser.load Demo.env Demo.registration "b"
            (Demo.world_of Demo.disk_locked None))
     = fst (PerUser.load Demo.env Demo.registration "nobody"
              (Demo.world_of Demo.disk None))
  /\ fst (PerUser.load Demo.env Demo.registration "b"
            (Demo.world_of Demo.disk_corrupt None))
     = fst (PerUser.load Demo.env Demo.registration "nobody"
              (Demo.world_of Demo.disk None))
  /\ fst (PerUser.load Demo.env Demo.registration "nobody"
            (Demo.world_of Demo.disk None))
     = Ok (JObject []).
Proof.
  repeat split; try (vm_compute; reflexivity).
  exists "{". split; vm_compute; reflexivity.
Qed.

(** ** The gate of [/qr/:name] *)

Section Gate.

Variable E : Env.





End Gate.

(** ** The callback *)

Section Callback.

Variable E : Env.
Variable v : variant.

(** Every path through the [try] of the callback. *)
Lemma exchange_and_store_run (app : json) (code state : string) (w : world) :
  PerUser.exchange_and_store E v app code state w
  = match PerUser.new_client app with
    | Throw e =>
        (Ok (PerUser.callback_failure v),
         record w [EvConsoleError (PerUser.callback_failure_log v) (Some e)])
    | Ok c0 =>
        let c := PerUser.restored E (w_fs w) c0 state in
        let p := PerUser.getTokenPathForUser E state in
        match getToken E c code with
        | Throw e =>
            (Ok (PerUser.callback_failure v),
             record w [EvReadFile p; EvGetToken c code;
                       EvConsoleError (PerUser.callback_failure_log v)
                                      (Some e)])
        | Ok tokens =>
            let text := stringify E 2 tokens in
            match Fs.writeFile (w_fs w) p text with
            | Throw e =>
                (Ok (PerUser.callback_failure v),
                 record w [EvReadFile p; EvGetToken c code;
                           EvWriteFile p text;
                           EvConsoleError (PerUser.callback_failure_log v)
                                          (Some e)])
            | Ok fs' =>
                (Ok (PerUser.callback_success E v state),
                 record (with_fs w fs')
                   [EvReadFile p; EvGetToken c code; EvWriteFile p text;
                    EvConsoleLog ("Token stored to " +:+ p)])
            end
        end
    end.
Proof.
  unfold PerUser.exchange_and_store, try_catch, bind at 1.
  rewrite createOAuth2ClientForUser_run.
  destruct (PerUser.new_client app) as [c0|e]; [| reflexivity].
  run. destruct (getToken E _ code) as [tokens|e]; [| same_world].
  run. destruct (Fs.writeFile (w_fs w) _ _) as [fs'|e]; same_world.
Qed.

Lemma missing_param_run (w : world) :
  exists new,
    PerUser.missing_param v w
    = (Ok (Reply 400 (Text "Missing code or state param.")), record w new)
    /\ forallb (fun e => negb (Trace.is_store e || Trace.is_exchange e)) new
       = true.
Proof.
  destruct v.
  - exists []. rewrite record_nil. now split.
  - exists [EvConsoleError "Missing code or state param." None]. now split.
Qed.

Lemma writeFile_lookup (fs fs' : filesystem) (p text : string) :
  Fs.writeFile fs p text = Ok fs' ->
  (exists r wr, fs' !! p = Some (File text r wr))
  /\ forall p', p' <> p -> fs' !! p' = fs !! p'.
Proof.
  unfold Fs.writeFile. intros H.
  destruct (fs !! p) as [[d|c r wr]|] eqn:Hp; try discriminate.
  - destruct wr; [| discriminate]. injection H as <-. split.
    + exists r, true. apply lookup_insert_eq.
    + intros p' Hne. now apply lookup_insert_ne.
  - destruct (fs !! Path.parent_dir p) as [[[|]|]|]; try discriminate.
    injection H as <-. split.
    + exists true, true. apply lookup_insert_eq.
    + intros p' Hne. now apply lookup_insert_ne.
Qed.

End Callback.

(** C5: when the callback is requested without [code] or without [state], it
    answers 400 "Missing code or state param." and neither the file system
    nor the provider's token endpoint is touched: the file system is what it
    was and the request's trace has no read, no write and no exchange. *)
Theorem callback_rejects_missing_parameter
        (E : Env) (v : variant) (app : json) (code state : option string)
        (w : world) :
  code = None \/ state = None ->
  let answer := PerUser.oauth2callback E v app code state w in
  fst answer = Ok (Reply 400 (Text "Missing code or state param."))
  /\ w_fs (snd answer) = w_fs w
  /\ exists new,
       w_trace (snd answer) = w_trace w ++ new
       /\ forallb (fun e => negb (Trace.is_store e || Trace.is_exchange e)) new
          = true.
Proof.
  intros H answer.
  assert (Hrun : answer = PerUser.missing_param v w).
  { subst answer. unfold PerUser.oauth2callback.
    destruct H as [-> | ->]; [reflexivity |]. now destruct code. }
  destruct (missing_param_run v w) as (new & Hnew & Hquiet).
  rewrite Hrun, Hnew. simpl. repeat split. now exists new.
Qed.

Lemma callback_rejects_missing_parameter_witness :
  fst (PerUser.oauth2callback Demo.env Part001 Demo.registration
         (Some "good-code") None (Demo.world_of Demo.disk None))
  = Ok (Reply 400 (Text "Missing code or state param.")).
Proof.
  exact (proj1 (callback_rejects_missing_parameter Demo.env Part001
                  Demo.registration (Some "good-code") None
                  (Demo.world_of Demo.disk None) (or_intror eq_refl))).
Defined.

(** C10: when the provider's token exchange throws, the callback answers 500
    and writes nothing: the file system after the request is the file system
    before it, so the grant stored for the identity named by [state], present
    or absent, is what it was; the trace shows the exchange and no write. *)
Theorem callback_exchange_failure_writes_nothing
        (E : Env) (v : variant) (app : json) (code state : string) (w : world)
        (c0 : client) (e : error) :
  PerUser.new_client app = Ok c0 ->
  PerUser.falsy (Some code) = false ->
  PerUser.falsy (Some state) = false ->
  getToken E (PerUser.restored E (w_fs w) c0 state) code = Throw e ->
  let answer :=
    PerUser.oauth2callback E v app (Some code) (Some state) w in
  fst answer = Ok (PerUser.callback_failure v)
  /\ w_fs (snd answer) = w_fs w
  /\ w_fs (snd answer) !! PerUser.getTokenPathForUser E state
     = w_fs w !! PerUser.getTokenPathForUser E state
  /\ exists new,
       w_trace (snd answer) = w_trace w ++ new
       /\ In (EvGetToken (PerUser.restored E (w_fs w) c0 state) code) new
       /\ forallb (fun ev => negb (Trace.is_write ev)) new = true.
Proof.
  intros Hc Hcode Hstate Hex answer. subst answer.
  unfold PerUser.oauth2callback. rewrite Hcode, Hstate. cbn [orb].
  rewrite exchange_and_store_run, Hc. cbv zeta. rewrite Hex. simpl.
  repeat split. eexists. split; [reflexivity |]. split; [| reflexivity].
  simpl. auto.
Qed.

Lemma callback_exchange_failure_writes_nothing_witness :
  PerUser.new_client Demo.registration = Ok (Demo.a_client (JObject []))
  /\ getToken Demo.env
       (PerUser.restored Demo.env Demo.disk (Demo.a_client (JObject [])) "b")
       "stale-code"
     = Throw (ProviderError "invalid_grant")
  /\ w_fs (snd (PerUser.oauth2callback Demo.env Part000 Demo.registration
                  (Some "stale-code") (Some "b")
                  (Demo.world_of Demo.disk None)))
     = Demo.disk.
Proof.
  split; [reflexivity |]. split; [reflexivity |].
  exact (proj1 (proj2 (callback_exchange_failure_writes_nothing Demo.env
                         Part000 Demo.registration "stale-code" "b"
                         (Demo.world_of Demo.disk None) _ _
                         eq_refl eq_refl eq_refl eq_refl))).
Defined.

(** ** Beginning an authorization *)

Section Begin.

Variable E : Env.

Lemma authenticate_handler_run (app : json) (userName : string) (w : world) :
  PerUser.authenticate_handler E app userName w
  = match PerUser.new_client app with
    | Throw e =>
        (Ok (Reply 500 (Text "Error generating auth URL.")),
         record w [EvConsoleError "" (Some e)])
    | Ok c0 =>
        let c := PerUser.restored E (w_fs w) c0 userName in
        let p := PerUser.getTokenPathForUser E userName in
        match generateAuthUrl E c (PerUser.consent_opts userName) with
        | Ok url =>
            (Ok (Redirect url),
             record w [EvReadFile p;
                       EvGenerateAuthUrl c (PerUser.consent_opts userName)])
        | Throw e =>
            (Ok (Reply 500 (Text "Error generating auth URL.")),
             record w [EvReadFile p;
                       EvGenerateAuthUrl c (PerUser.consent_opts userName);
                       EvConsoleError "" (Some e)])
        end
    end.
Proof.
  unfold PerUser.authenticate_handler, try_catch, bind at 1.
  rewrite createOAuth2ClientForUser_run.
  destruct (PerUser.new_client app) as [c0|e]; [| reflexivity].
  run. fold (PerUser.consent_opts userName).
  destruct (generateAuthUrl E _ (PerUser.consent_opts userName)); same_world.
Qed.

(** Beginning an authorization leaves no mark on the server: it only adds
    to the trace. *)
Lemma authenticate_handler_records (app : json) (userName : string)
      (w : world) :
  exists evs, snd (PerUser.authenticate_handler E app userName w)
              = record w evs.
Proof.
  rewrite authenticate_handler_run.
  destruct (PerUser.new_client app) as [c0|e]; [| eauto].
  cbv zeta. destruct (generateAuthUrl E _ _); eauto.
Qed.

(** The callback reads nothing of the server but the file system. *)
Lemma oauth2callback_ignores_trace (v : variant) (app : json)
      (code state : option string) (w : world) (evs : list event) :
  fst (PerUser.oauth2callback E v app code state (record w evs))
  = fst (PerUser.oauth2callback E v app code state w)
  /\ w_fs (snd (PerUser.oauth2callback E v app code state (record w evs)))
     = w_fs (snd (PerUser.oauth2callback E v app code state w)).
Proof.
  assert (Hm : forall w0,
             fst (PerUser.missing_param v w0)
             = Ok (Reply 400 (Text "Missing code or state param."))
             /\ w_fs (snd (PerUser.missing_param v w0)) = w_fs w0).
  { intros w0. destruct (missing_param_run v w0) as (new & -> & _).
    now split. }
  assert (Hmiss :
            fst (PerUser.missing_param v (record w evs))
            = fst (PerUser.missing_param v w)
            /\ w_fs (snd (PerUser.missing_param v (record w evs)))
               = w_fs (snd (PerUser.missing_param v w))).
  { destruct (Hm w) as [-> ->]. destruct (Hm (record w evs)) as [-> ->].
    now split. }
  unfold PerUser.oauth2callback.
  destruct code as [c|]; [| exact Hmiss].
  destruct state as [s|]; [| exact Hmiss].
  destruct (PerUser.falsy (Some c) || PerUser.falsy (Some s));
    [exact Hmiss |].
  rewrite !exchange_and_store_run. cbv zeta.
  change (w_fs (record w evs)) with (w_fs w).
  destruct (PerUser.new_client app) as [c0|e]; [| now split].
  destruct (getToken E _ c) as [tokens|e]; [| now split].
  destruct (Fs.writeFile (w_fs w) _ _); now split.
Qed.

End Begin.

(** C3: a callback that answers 200 had both parameters, exchanged [code] at
    the provider's token endpoint with the client restored for the identity
    [state], and wrote the grant it received to the token file of that very
    [state].  Nothing else decides it: the callback reads no record of
    pending authorizations, and it answers and writes the same whether or not
    an authorization was begun before, for [state] or for any other name. *)
Theorem callback_stores_grant_under_state
        (E : Env) (v : variant) (app : json) (code state : option string)
        (w : world) (b : body) :
  let answer := PerUser.oauth2callback E v app code state w in
  fst answer = Ok (Reply 200 b) ->
  exists c s c0 tokens,
    code = Some c /\ state = Some s
    /\ PerUser.new_client app = Ok c0
    /\ getToken E (PerUser.restored E (w_fs w) c0 s) c = Ok tokens
    /\ Fs.writeFile (w_fs w) (PerUser.getTokenPathForUser E s)
         (stringify E 2 tokens)
       = Ok (w_fs (snd answer))
    /\ (exists r wr,
          w_fs (snd answer) !! PerUser.getTokenPathForUser E s
          = Some (File (stringify E 2 tokens) r wr))
    /\ forall name,
         let begun := snd (PerUser.authenticate_handler E app name w) in
         fst (PerUser.oauth2callback E v app code state begun) = fst answer
         /\ w_fs (snd (PerUser.oauth2callback E v app code state begun))
            = w_fs (snd answer).
Proof.
  intros answer Hok.
  assert (Hm : forall w0,
             fst (PerUser.missing_param v w0) <> Ok (Reply 200 b)).
  { intros w0. destruct (missing_param_run v w0) as (new & -> & _).
    discriminate. }
  subst answer. unfold PerUser.oauth2callback in Hok.
  destruct code as [c|]; [| now apply Hm in Hok].
  destruct state as [s|]; [| now apply Hm in Hok].
  destruct (PerUser.falsy (Some c) || PerUser.falsy (Some s)) eqn:Hf;
    [now apply Hm in Hok |].
  assert (Hrun : PerUser.oauth2callback E v app (Some c) (Some s) w
                 = PerUser.exchange_and_store E v app c s w).
  { unfold PerUser.oauth2callback. now rewrite Hf. }
  rewrite Hrun. clear Hrun.
  rewrite exchange_and_store_run in Hok |- *. cbv zeta in Hok |- *.
  destruct (PerUser.new_client app) as [c0|e] eqn:Hnc;
    [| destruct v; discriminate].
  destruct (getToken E _ c) as [tokens|e] eqn:Hex;
    [| destruct v; discriminate].
  destruct (Fs.writeFile (w_fs w) _ _) as [fs'|e] eqn:Hw;
    [| destruct v; discriminate].
  exists c, s, c0, tokens.
  split; [reflexivity |]. split; [reflexivity |]. split; [reflexivity |].
  split; [exact Hex |]. split; [exact Hw |]. split; [| intros name; split].
  - exact (proj1 (writeFile_lookup _ _ _ _ Hw)).
  - destruct (authenticate_handler_records E app name w) as [evs ->].
    rewrite (proj1 (oauth2callback_ignores_trace E v app _ _ w evs)).
    unfold PerUser.oauth2callback.
    rewrite Hf, exchange_and_store_run, Hnc. cbv zeta. now rewrite Hex, Hw.
  - destruct (authenticate_handler_records E app name w) as [evs ->].
    rewrite (proj2 (oauth2callback_ignores_trace E v app _ _ w evs)).
    unfold PerUser.oauth2callback.
    rewrite Hf, exchange_and_store_run, Hnc. cbv zeta. now rewrite Hex, Hw.
Qed.

Lemma callback_stores_grant_under_state_witness :
  let w := Demo.world_of Demo.disk None in
  let answer :=
    PerUser.oauth2callback Demo.env Part001 Demo.registration
      (Some "good-code") (Some "zed") w in
  fst answer
  = Ok (Reply 200 (Text "Authentication successful for zed. Token saved."))
  /\ exists c s c0 tokens,
       Some "good-code" = Some c /\ Some "zed" = Some s
       /\ PerUser.new_client Demo.registration = Ok c0
       /\ getToken Demo.env (PerUser.restored Demo.env (w_fs w) c0 s) c
          = Ok tokens
       /\ Fs.writeFile (w_fs w) (PerUser.getTokenPathForUser Demo.env s)
            (stringify Demo.env 2 tokens)
          = Ok (w_fs (snd answer))
       /\ (exists r wr,
             w_fs (snd answer) !! PerUser.getTokenPathForUser Demo.env s
             = Some (File (stringify Demo.env 2 tokens) r wr))
       /\ forall name,
            let begun :=
              snd (PerUser.authenticate_handler Demo.env Demo.registration
                     name w) in
            fst (PerUser.oauth2callback Demo.env Part001 Demo.registration
                   (Some "good-code") (Some "zed") begun)
            = fst answer
            /\ w_fs (snd (PerUser.oauth2callback Demo.env Part001
                            Demo.registration (Some "good-code")
                            (Some "zed") begun))
               = w_fs (snd answer).
Proof.
  intros w answer. split; [reflexivity |].
  exact (callback_stores_grant_under_state Demo.env Part001 Demo.registration
           (Some "good-code") (Some "zed") w _ eq_refl).
Defined.

(** C9: for every user name, [/authenticate/:name] asks the provider's
    library for a consent URL with [access_type] "offline", [prompt]
    "consent" and [state] the user name itself, on the client restored for
    that user, and redirects to the URL it gets; the options are the same on
    every call.  The application registration is assumed well-shaped. *)
Theorem authenticate_requests_offline_consent
        (E : Env) (app : json) (userName : string) (w : world) (c0 : client) :
  PerUser.new_client app = Ok c0 ->
  let c := PerUser.restored E (w_fs w) c0 userName in
  let opts := PerUser.consent_opts userName in
  let answer := PerUser.authenticate_handler E app userName w in
  access_type opts = "offline"
  /\ prompt opts = "consent"
  /\ state opts = userName
  /\ (exists new,
        w_trace (snd answer) = w_trace w ++ new
        /\ In (EvGenerateAuthUrl c opts) new
        /\ forall c' opts',
             In (EvGenerateAuthUrl c' opts') new -> c' = c /\ opts' = opts)
  /\ fst answer
     = Ok match generateAuthUrl E c opts with
          | Ok url => Redirect url
          | Throw _ => Reply 500 (Text "Error generating auth URL.")
          end.
Proof.
  intros Hc c opts answer. subst answer.
  rewrite authenticate_handler_run, Hc. cbv zeta. fold c. fold opts.
  split; [reflexivity |]. split; [reflexivity |]. split; [reflexivity |].
  split; [| now destruct (generateAuthUrl E c opts)].
  destruct (generateAuthUrl E c opts); simpl;
    (eexists; split; [reflexivity |]; split; [simpl; auto |]);
    intros c' opts' Hin; simpl in Hin; intuition congruence.
Qed.

Lemma authenticate_requests_offline_consent_witness :
  PerUser.new_client Demo.registration = Ok (Demo.a_client (JObject []))
  /\ fst (PerUser.authenticate_handler Demo.env Demo.registration "b"
            (Demo.world_of Demo.disk None))
     = Ok (Redirect
             "https://accounts.google.com/o/oauth2/v2/auth?access_type=offline&prompt=consent&state=b").
Proof.
  split; [reflexivity |].
  exact (proj2 (proj2 (proj2 (proj2
           (authenticate_requests_offline_consent Demo.env Demo.registration
              "b" (Demo.world_of Demo.disk None) _ eq_refl))))).
Defined.

(** ** The Credential Store: isolation of users *)

Section Isolation.

Variable E : Env.

Lemma load_result (app : json) (u : string) (w : world) :
  fst (PerUser.load E app u w)
  = match PerUser.new_client app with
    | Ok c => Ok (credentials (PerUser.restored E (w_fs w) c u))
    | Throw e => Throw e
    end.
Proof.
  unfold PerUser.load, bind. rewrite createOAuth2ClientForUser_run.
  now destruct (PerUser.new_client app).
Qed.

Lemma save_run (u : string) (grant : json) (w : world) :
  let p := PerUser.getTokenPathForUser E u in
  let text := stringify E 2 grant in
  PerUser.save E u grant w
  = match Fs.writeFile (w_fs w) p text with
    | Ok fs' => (Ok tt, with_fs (record w [EvWriteFile p text]) fs')
    | Throw e => (Throw e, record w [EvWriteFile p text])
    end.
Proof.
  intros p text. unfold PerUser.save. fold p. fold text. run.
  destruct (Fs.writeFile (w_fs w) p text); reflexivity.
Qed.

(** A write leaves every other path as it was. *)
Lemma save_other_path (u : string) (grant : json) (w : world) (p' : string) :
  p' <> PerUser.getTokenPathForUser E u ->
  w_fs (snd (PerUser.save E u grant w)) !! p' = w_fs w !! p'.
Proof.
  intros Hne. rewrite save_run. cbv zeta.
  destruct (Fs.writeFile (w_fs w) _ _) as [fs'|e] eqn:Hw; [| reflexivity].
  simpl. now apply (writeFile_lookup _ _ _ _ Hw).
Qed.

Lemma restored_same_node (fs fs' : filesystem) (c : client) (u : string) :
  fs' !! PerUser.getTokenPathForUser E u
  = fs !! PerUser.getTokenPathForUser E u ->
  PerUser.restored E fs' c u = PerUser.restored E fs c u.
Proof. intros H. unfold PerUser.restored, Fs.readFile. now rewrite H. Qed.

End Isolation.

(** C1 (as the code has it): on identities whose token file name
    [token-<name>.json] has no empty, ["."] or [".."] path segment (every
    identity without a ["/"] is one) the key derivation is injective, and
    saving a grant for one such identity leaves the token file and the loaded
    grant of every other one unchanged. *)
Theorem plain_identities_do_not_collide (E : Env) (u1 u2 : string) :
  PerUser.plain_identity u1 = true ->
  PerUser.plain_identity u2 = true ->
  u1 <> u2 ->
  PerUser.getTokenPathForUser E u1 <> PerUser.getTokenPathForUser E u2
  /\ forall (app g2 : json) (w : world),
       w_fs (snd (PerUser.save E u2 g2 w)) !! PerUser.getTokenPathForUser E u1
       = w_fs w !! PerUser.getTokenPathForUser E u1
       /\ fst (PerUser.load E app u1 (snd (PerUser.save E u2 g2 w)))
          = fst (PerUser.load E app u1 w).
Proof.
  intros H1 H2 Hne.
  assert (Hp : PerUser.getTokenPathForUser E u1
               <> PerUser.getTokenPathForUser E u2).
  { intros Heq. apply Hne. now apply (getTokenPathForUser_inj E). }
  split; [exact Hp |]. intros app g2 w.
  pose proof (save_other_path E u2 g2 w _ Hp) as Hsame.
  split; [exact Hsame |].
  rewrite !load_result. destruct (PerUser.new_client app); [| reflexivity].
  now rewrite (restored_same_node E _ _ _ _ Hsame).
Qed.

(** Every identity without a separator is plain. *)
Lemma identities_without_separator_are_plain (u : string) :
  Str.contains Path.sep u = false -> PerUser.plain_identity u = true.
Proof. apply token_file_plain_of_no_sep. Qed.

Lemma plain_identities_do_not_collide_witness :
  PerUser.plain_identity "b" = true
  /\ PerUser.plain_identity "alice" = true
  /\ "b" <> "alice"
  /\ PerUser.getTokenPathForUser Demo.env "b"
     <> PerUser.getTokenPathForUser Demo.env "alice"
  /\ fst (PerUser.load Demo.env Demo.registration "b"
            (snd (PerUser.save Demo.env "alice" (Demo.grant "of-alice")
                    (Demo.world_of Demo.disk None))))
     = fst (PerUser.load Demo.env Demo.registration "b"
              (Demo.world_of Demo.disk None)).
Proof.
  split; [reflexivity |]. split; [reflexivity |].
  split; [discriminate |].
  destruct (plain_identities_do_not_collide Demo.env "b" "alice"
              eq_refl eq_refl) as [Hp Hframe]; [discriminate |].
  split; [exact Hp |].
  exact (proj2 (Hframe Demo.registration (Demo.grant "of-alice")
                  (Demo.world_of Demo.disk None))).
Defined.

(** C1 (as stated) fails: the identities [b] and [x/../token-b] are distinct
    and share one token path, so a grant saved for the second replaces the
    grant loaded for the first; the callback does exactly that with
    [state=x/../token-b]. *)
Lemma distinct_identities_share_a_token_file :
  "b" <> "x/../token-b"
  /\ PerUser.getTokenPathForUser Demo.env "b"
     = PerUser.getTokenPathForUser Demo.env "x/../token-b"
  /\ fst (PerUser.load Demo.env Demo.registration "b"
            (Demo.world_of Demo.disk None))
     = Ok (Demo.grant "of-b")
  /\ fst (PerUser.load Demo.env Demo.registration "b"
            (snd (PerUser.save Demo.env "x/../token-b" (Demo.grant "other")
                    (Demo.world_of Demo.disk None))))
     = Ok (Demo.grant "other")
  /\ fst (PerUser.load Demo.env Demo.registration "b"
            (snd (PerUser.oauth2callback Demo.env Part000 Demo.registration
                    (Some "good-code") (Some "x/../token-b")
                    (Demo.world_of Demo.disk None))))
     = Ok (Demo.grant "fresh").
Proof.
  split; [discriminate |]. repeat split; vm_compute; reflexivity.
Qed.

(** ** Startup *)

Section Startup.

Variable E : Env.

(** [part_000] hands [JSON.parse] a promise, whatever the file holds. *)
Lemma main_part_000 (w : world) :
  fst (PerUser.main E Part000 w) = Exited 1.
Proof. reflexivity. Qed.

(** [part_001] exits exactly when the read or the parse fails. *)
Lemma main_part_001 (w : world) :
  fst (PerUser.main E Part001 w)
  = match Fs.readFile (w_fs w) (PerUser.CREDENTIALS_PATH E) with
    | Ok text =>
        match Json.parse text with
        | Ok credentials => Listening 5001 credentials
        | Throw _ => Exited 1
        end
    | Throw _ => Exited 1
    end.
Proof.
  unfold PerUser.main, PerUser.load_credentials, PerUser.read_credentials.
  run. destruct (Fs.readFile (w_fs w) (PerUser.CREDENTIALS_PATH E))
    as [text|e]; [| reflexivity].
  simpl. destruct (Json.parse text); reflexivity.
Qed.

End Startup.

(** C7: with a [credentials.json] that is present and well-formed, startup
    must succeed.  [part_001] does start, listening with the parsed
    registration; [part_000] exits with status 1 all the same, because it
    parses the promise of the read instead of the text read. *)
Theorem part_000_exits_on_well_formed_credentials
        (E : Env) (w : world) (text : string) (credentials : json) :
  Fs.readFile (w_fs w) (PerUser.CREDENTIALS_PATH E) = Ok text ->
  Json.parse text = Ok credentials ->
  fst (PerUser.main E Part001 w) = Listening 5001 credentials
  /\ fst (PerUser.main E Part000 w) = Exited 1.
Proof.
  intros Hread Hparse. split; [| apply main_part_000].
  now rewrite main_part_001, Hread, Hparse.
Qed.

Lemma part_000_exits_on_well_formed_credentials_witness :
  Fs.readFile Demo.disk (PerUser.CREDENTIALS_PATH Demo.env)
  = Ok Demo.credentials_json
  /\ Json.parse Demo.credentials_json = Ok Demo.registration
  /\ fst (PerUser.main Demo.env Part001 (Demo.world_of Demo.disk None))
     = Listening 5001 Demo.registration
  /\ fst (PerUser.main Demo.env Part000 (Demo.world_of Demo.disk None))
     = Exited 1.
Proof.
  split; [vm_compute; reflexivity |]. split; [vm_compute; reflexivity |].
  apply (part_000_exits_on_well_formed_credentials Demo.env
           (Demo.world_of Demo.disk None) Demo.credentials_json
           Demo.registration); vm_compute; reflexivity.
Defined.

(** ** The Mailbox Query Service *)

Section MailboxFacts.

Variable E : Env.
Variable cfg : query.
Variable auth : client.
Variable userName : string.

Lemma fetch_one_run (m : message) (w : world) :
  Mailbox.fetch_one E cfg auth userName m w
  = match gmail_get E auth (msg_id m) with
    | Throw e => (Throw e, record w [EvGmailGet auth (msg_id m)])
    | Ok headers =>
        match Mailbox.date_of E headers with
        | Throw e => (Throw e, record w [EvGmailGet auth (msg_id m)])
        | Ok date =>
            (Ok (Mailbox.normalized cfg userName m
                   (Mailbox.subject_of headers) date (uuid E (w_uuids w))),
             minted (record w [EvGmailGet auth (msg_id m); EvUuid]))
        end
    end.
Proof.
  unfold Mailbox.fetch_one, Mailbox.messages_get, Mailbox.uuidv4. run.
  destruct (gmail_get E auth (msg_id m)) as [headers|e]; [| reflexivity].
  simpl. destruct (Mailbox.date_of E headers); [| reflexivity].
  unfold minted, record. simpl. now rewrite <- app_assoc.
Qed.

Lemma quiet_refl (w : world) : Trace.quiet auth w w.
Proof.
  repeat split. exists []. split; [now rewrite app_nil_r | constructor].
Qed.

Lemma quiet_trans (w1 w2 w3 : world) :
  Trace.quiet auth w1 w2 -> Trace.quiet auth w2 w3 -> Trace.quiet auth w1 w3.
Proof.
  intros (F1 & A1 & n1 & T1 & P1) (F2 & A2 & n2 & T2 & P2).
  split; [congruence |]. split; [congruence |].
  exists (n1 ++ n2). split.
  - now rewrite T2, T1, app_assoc.
  - now apply Forall_app.
Qed.

Lemma quiet_record (w : world) (evs : list event) :
  Forall (Trace.made_with auth) evs -> Trace.quiet auth w (record w evs).
Proof. intros H. repeat split. now exists evs. Qed.

Lemma quiet_minted (w : world) : Trace.quiet auth w (minted w).
Proof.
  repeat split. exists []. split; [simpl; now rewrite app_nil_r | constructor].
Qed.

Lemma fetch_one_quiet (m : message) (w : world) :
  Trace.quiet auth w (snd (Mailbox.fetch_one E cfg auth userName m w)).
Proof.
  rewrite fetch_one_run.
  assert (Hget : Trace.made_with auth (EvGmailGet auth (msg_id m)))
    by reflexivity.
  destruct (gmail_get E auth (msg_id m)) as [headers|e];
    [| apply quiet_record; repeat constructor].
  destruct (Mailbox.date_of E headers);
    [| apply quiet_record; repeat constructor].
  simpl. eapply quiet_trans; [| apply quiet_minted].
  apply quiet_record. repeat constructor.
Qed.

(** One turn of the loop over the listing. *)
Lemma fetch_all_cons (m : message) (rest : list message)
      (emailData : list email) (w : world) :
  Mailbox.fetch_all E cfg auth userName (m :: rest) emailData w
  = match Mailbox.fetch_one E cfg auth userName m w with
    | (Ok e, w1) =>
        Mailbox.fetch_all E cfg auth userName rest (emailData ++ [e]) w1
    | (Throw err, w1) =>
        Mailbox.fetch_all E cfg auth userName rest emailData
          (record w1 [EvConsoleError ("Error fetching message "
                                        +:+ msg_id m +:+ ":") (Some err)])
    end.
Proof.
  cbn [Mailbox.fetch_all]. unfold bind, try_catch, ret, console_error, emit.
  destruct (Mailbox.fetch_one E cfg auth userName m w) as [[e|err] w1];
    reflexivity.
Qed.

(** The loop over the listing never throws. *)
Lemma fetch_all_total (messages : list message) :
  forall (emailData : list email) (w : world),
  exists result,
    fst (Mailbox.fetch_all E cfg auth userName messages emailData w)
    = Ok result
    /\ Trace.quiet auth w (snd (Mailbox.fetch_all E cfg auth userName messages
                       emailData w)).
Proof.
  induction messages as [|m rest IH]; intros emailData w.
  - exists emailData. split; [reflexivity | apply quiet_refl].
  - rewrite fetch_all_cons.
    pose proof (fetch_one_quiet m w) as Hq.
    destruct (Mailbox.fetch_one E cfg auth userName m w) as [[e|err] w1];
      simpl in Hq.
    + destruct (IH (emailData ++ [e]) w1) as (result & Hr & Hq').
      exists result. split; [exact Hr |]. now apply (quiet_trans _ w1).
    + destruct (IH emailData (record w1
                  [EvConsoleError ("Error fetching message "
                                     +:+ msg_id m +:+ ":") (Some err)]))
        as (result & Hr & Hq').
      exists result. split; [exact Hr |].
      eapply quiet_trans; [exact Hq |].
      eapply quiet_trans; [| exact Hq'].
      apply quiet_record. repeat constructor.
Qed.

(** What the listing call returns decides whether the batch fails. *)
Lemma getLatestEmails_run (w : world) :
  let listed := record w [EvGmailList auth (q cfg) (maxResults cfg)] in
  Mailbox.getLatestEmails E cfg auth userName w
  = match gmail_list E auth (q cfg) (maxResults cfg) with
    | Throw e =>
        (Throw e,
         record listed [EvConsoleError "The API returned an error:" (Some e)])
    | Ok None | Ok (Some []) =>
        (Ok [], record listed [EvConsoleLog "No messages found."])
    | Ok (Some (m :: rest)) =>
        Mailbox.fetch_all E cfg auth userName (m :: rest) [] listed
    end.
Proof.
  intros listed. unfold Mailbox.getLatestEmails, Mailbox.messages_list.
  unfold try_catch, bind, lift. rewrite emit_run. fold listed.
  destruct (gmail_list E auth (q cfg) (maxResults cfg)) as [[[|m rest]|]|e];
    try reflexivity.
  destruct (fetch_all_total (m :: rest) [] listed) as (result & Hr & _).
  destruct (Mailbox.fetch_all E cfg auth userName (m :: rest) [] listed)
    as [r w']. simpl in Hr. now subst r.
Qed.

Lemma getLatestEmails_quiet (w : world) :
  Trace.quiet auth w (snd (Mailbox.getLatestEmails E cfg auth userName w)).
Proof.
  rewrite getLatestEmails_run. cbv zeta.
  assert (Hl : Trace.quiet auth w
                 (record w [EvGmailList auth (q cfg) (maxResults cfg)])).
  { apply quiet_record. repeat constructor. }
  destruct (gmail_list E auth (q cfg) (maxResults cfg)) as [[[|m rest]|]|e].
  - eapply quiet_trans; [exact Hl |]. apply quiet_record. repeat constructor.
  - eapply quiet_trans; [exact Hl |].
    destruct (fetch_all_total (m :: rest) []
                (record w [EvGmailList auth (q cfg) (maxResults cfg)]))
      as (_ & _ & Hq). exact Hq.
  - eapply quiet_trans; [exact Hl |]. apply quiet_record. repeat constructor.
  - eapply quiet_trans; [exact Hl |]. apply quiet_record. repeat constructor.
Qed.

End MailboxFacts.



(** ** The single cache *)

Section Cache.

Variable E : Env.

Lemma getAuthClient_cached (c : client) (w : world) :
  w_authClient w = Some c -> SingleCache.getAuthClient E w = (Ok c, w).
Proof.
  intros H. unfold SingleCache.getAuthClient, bind, get_authClient.
  now rewrite H.
Qed.

(** A successful [getAuthClient] leaves its client in the cache. *)
Lemma getAuthClient_populates (c : client) (w : world) :
  fst (SingleCache.getAuthClient E w) = Ok c ->
  w_authClient (snd (SingleCache.getAuthClient E w)) = Some c.
Proof.
  unfold SingleCache.getAuthClient, bind, get_authClient, set_authClient,
    ret, lift, emit.
  destruct (w_authClient w) as [c'|] eqn:Hc; [simpl; congruence |].
  destruct (SingleCache.loadSavedCredentialsIfExist E w) as [[[c'|]|e] w1];
    [simpl; congruence | | discriminate].
  destruct (authenticate E) as [c0|e]; [| discriminate].
  destruct (Json.truthy (credentials c0)); [| simpl; congruence].
  destruct (SingleCache.saveCredentials E c0 _) as [[[]|e] w2];
    [simpl; congruence | discriminate].
Qed.

Lemma qr_handler_cached_run (c : client) (name : string) (w : world) :
  w_authClient w = Some c ->
  SingleCache.qr_handler E name w
  = match Mailbox.getLatestEmails E Mailbox.query_server_js c name w with
    | (Ok emails, w1) =>
        (Ok (Reply 200 (Emails (if Nat.eqb (length emails) 0 then []
                                else emails))), w1)
    | (Throw e, w1) =>
        (Ok (Reply 500 (Envelope "Failed to fetch emails"
                                 (Some (message_of E e)))),
         record w1 [EvConsoleError "Error fetching emails:" (Some e)])
    end.
Proof.
  intros Hc. unfold SingleCache.qr_handler, try_catch, bind.
  rewrite (getAuthClient_cached c w Hc).
  destruct (Mailbox.getLatestEmails E Mailbox.query_server_js c name w)
    as [[emails|e] w1]; [| reflexivity].
  now destruct (Nat.eqb (length emails) 0).
Qed.

(** With a populated cache the handler goes straight to the mailbox, with
    the cached client. *)
Lemma qr_handler_cached (c : client) (name : string) (w : world) :
  w_authClient w = Some c ->
  Trace.quiet c w (snd (SingleCache.qr_handler E name w))
  /\ exists rest,
       w_trace (snd (SingleCache.qr_handler E name w))
       = w_trace w
           ++ EvGmailList c (q Mailbox.query_server_js)
                (maxResults Mailbox.query_server_js) :: rest.
Proof.
  intros Hc. rewrite (qr_handler_cached_run c name w Hc).
  pose proof (getLatestEmails_quiet E Mailbox.query_server_js c name w) as Hq.
  pose proof (getLatestEmails_run E Mailbox.query_server_js c name w) as Hrun.
  cbv zeta in Hrun.
  assert (Hstart :
            exists rest,
              w_trace (snd (Mailbox.getLatestEmails E Mailbox.query_server_js
                              c name w))
              = w_trace w
                  ++ EvGmailList c (q Mailbox.query_server_js)
                       (maxResults Mailbox.query_server_js) :: rest).
  { rewrite Hrun.
    destruct (gmail_list E c _ _) as [[[|m rest]|]|e];
      try (eexists; simpl; rewrite <- app_assoc; reflexivity).
    destruct (fetch_all_total E Mailbox.query_server_js c name (m :: rest) []
                (record w [EvGmailList c (q Mailbox.query_server_js)
                             (maxResults Mailbox.query_server_js)]))
      as (_ & _ & _ & _ & new & -> & _).
    exists new. simpl. now rewrite <- app_assoc. }
  clear Hrun.
  destruct (Mailbox.getLatestEmails E Mailbox.query_server_js c name w)
    as [[emails|e] w1]; simpl in Hq, Hstart; simpl.
  - split; [exact Hq | exact Hstart].
  - destruct Hstart as [rest Hrest]. split.
    + eapply quiet_trans; [exact Hq |]. apply quiet_record.
      repeat constructor.
    + exists (rest ++ [EvConsoleError "Error fetching emails:" (Some e)]).
      rewrite Hrest. now rewrite <- app_assoc.
Qed.

Lemma serve_cached (c : client) (names : list string) :
  forall w,
    w_authClient w = Some c ->
    Trace.quiet c w (SingleCache.serve E names w).
Proof.
  induction names as [|name rest IH]; intros w Hc; simpl.
  - apply quiet_refl.
  - destruct (qr_handler_cached c name w Hc) as [Hq _].
    eapply quiet_trans; [exact Hq |]. apply IH.
    destruct Hq as (_ & -> & _). exact Hc.
Qed.

End Cache.

(** C2: in [server.js], once a call of [getAuthClient] has succeeded its
    client sits in the process-wide cache, and from any such state
    [getAuthClient] returns that client without any effect; every
    [/qr/:name] request, whatever the name, opens its mailbox query with that
    client and makes all its mailbox calls with it, and the cache still holds
    it after any sequence of requests.  Two requests for two names thus see
    the same client. *)
Theorem single_cache_serves_every_name_with_one_client
        (E : Env) (w0 : world) (c : client) :
  fst (SingleCache.getAuthClient E w0) = Ok c ->
  w_authClient (snd (SingleCache.getAuthClient E w0)) = Some c
  /\ forall w,
       w_authClient w = Some c ->
       SingleCache.getAuthClient E w = (Ok c, w)
       /\ (forall name,
             exists rest,
               w_trace (snd (SingleCache.qr_handler E name w))
               = w_trace w
                   ++ EvGmailList c (q Mailbox.query_server_js)
                        (maxResults Mailbox.query_server_js) :: rest
               /\ Forall (Trace.made_with c) rest)
       /\ (forall names,
             w_authClient (SingleCache.serve E names w) = Some c
             /\ exists new,
                  w_trace (SingleCache.serve E names w) = w_trace w ++ new
                  /\ Forall (Trace.made_with c) new).
Proof.
  intros Hfirst. split; [now apply getAuthClient_populates |].
  intros w Hc. split; [now apply getAuthClient_cached |]. split.
  - intros name. destruct (qr_handler_cached E c name w Hc)
      as [(_ & _ & new & Hnew & Hall) [rest Hrest]].
    exists rest. split; [exact Hrest |].
    rewrite Hrest in Hnew. apply app_inv_head in Hnew. subst new.
    now inversion Hall.
  - intros names. destruct (serve_cached E c names w Hc) as (_ & Ha & Hnew).
    split; [congruence | exact Hnew].
Qed.

Lemma single_cache_serves_every_name_with_one_client_witness :
  let w0 := Demo.world_of Demo.disk None in
  let c := Demo.a_client (Demo.grant "local") in
  let w := snd (SingleCache.getAuthClient Demo.env w0) in
  fst (SingleCache.getAuthClient Demo.env w0) = Ok c
  /\ w_authClient w = Some c
  /\ w_authClient (SingleCache.serve Demo.env ["ann"; "bob"] w) = Some c.
Proof.
  intros w0 c w.
  destruct (single_cache_serves_every_name_with_one_client Demo.env w0 c
              eq_refl) as [Hpop Hall].
  split; [reflexivity |]. split; [exact Hpop |].
  exact (proj1 (proj2 (proj2 (Hall w Hpop)) ["ann"; "bob"])).
Defined.


(** ** The paths through [/qr/:name] *)

Section Answers.

Variable E : Env.
Variable v : variant.

(** Every path through [/qr/:name]. *)
Lemma qr_handler_paths (app : json) (u : string) (w : world) :
  PerUser.qr_handler E v app u w
  = match PerUser.new_client app with
    | Throw e =>
        (Ok (Reply 500 (Envelope "Failed to fetch emails"
                                 (Some (message_of E e)))),
         record w [EvConsoleError "Error in /qr/:name:" (Some e)])
    | Ok c0 =>
        let c := PerUser.restored E (w_fs w) c0 u in
        let w0 := record w [EvReadFile (PerUser.getTokenPathForUser E u)] in
        if PerUser.isAuthorized c then
          match Mailbox.getLatestEmails E (PerUser.query_of v) c u w0 with
          | (Ok emails, w1) => (Ok (Reply 200 (Emails emails)), w1)
          | (Throw e, w1) =>
              (Ok (Reply 500 (Envelope "Failed to fetch emails"
                                       (Some (message_of E e)))),
               record w1 [EvConsoleError "Error in /qr/:name:" (Some e)])
          end
        else
          (Ok (Reply 400 (Envelope (PerUser.not_authenticated u) None)), w0)
    end.
Proof.
  unfold PerUser.qr_handler, try_catch, bind at 1.
  rewrite createOAuth2ClientForUser_run.
  destruct (PerUser.new_client app) as [c0|e]; [| reflexivity].
  cbv zeta. destruct (PerUser.isAuthorized _); [| reflexivity].
  change (negb true) with false. cbv iota. unfold bind.
  destruct (Mailbox.getLatestEmails E (PerUser.query_of v) _ u _)
    as [[emails|e] w1]; reflexivity.
Qed.

End Answers.

(** The batch throws exactly the error of the listing call. *)
Lemma mailbox_failure_iff (E : Env) (cfg : query) (auth : client)
      (userName : string) (w : world) (e : error) :
  fst (Mailbox.getLatestEmails E cfg auth userName w) = Throw e
  <-> gmail_list E auth (q cfg) (maxResults cfg) = Throw e.
Proof.
  rewrite getLatestEmails_run. cbv zeta.
  destruct (gmail_list E auth (q cfg) (maxResults cfg))
    as [[[|m rest]|]|e'].
  - split; discriminate.
  - destruct (fetch_all_total E cfg auth userName (m :: rest) []
                (record w [EvGmailList auth (q cfg) (maxResults cfg)]))
      as (result & -> & _). split; discriminate.
  - split; discriminate.
  - simpl. split; congruence.
Qed.

(** ** The gate of [/qr/:name], after a run of requests *)

Section Unseen.

Variable E : Env.
Variable v : variant.







End Unseen.




(** * Further properties of the code *)

(** ** The batch of [getLatestEmails] *)

Section BatchFacts.

Variable E : Env.
Variable cfg : query.
Variable auth : client.

(** The loop returns what it was given followed by one record per fetchable
    message, in listing order, numbered with the next identifiers. *)
Lemma fetch_all_result (userName : string) (messages : list message) :
  forall (emailData : list email) (w : world),
  exists new,
    fst (Mailbox.fetch_all E cfg auth userName messages emailData w)
    = Ok (emailData ++ new)
    /\ map mail new
       = map Batch.link (List.filter (Batch.fetchable E auth) messages)
    /\ map id new = map (uuid E) (seq (w_uuids w) (length new))
    /\ w_uuids (snd (Mailbox.fetch_all E cfg auth userName messages
                       emailData w))
       = w_uuids w + length new
    /\ Forall (fun r => person r = userName) new.
Proof.
  induction messages as [|m rest IH]; intros emailData w.
  - exists []. simpl. rewrite app_nil_r. repeat split; auto.
  - rewrite fetch_all_cons, fetch_one_run. simpl List.filter.
    replace (Batch.fetchable E auth m)
      with (match gmail_get E auth (msg_id m) with
            | Ok headers =>
                match Mailbox.date_of E headers with
                | Ok _ => true
                | Throw _ => false
                end
            | Throw _ => false
            end) by reflexivity.
    destruct (gmail_get E auth (msg_id m)) as [headers|e].
    + destruct (Mailbox.date_of E headers) as [d|e].
      * destruct (IH (emailData
                        ++ [Mailbox.normalized cfg userName m
                              (Mailbox.subject_of headers) d
                              (uuid E (w_uuids w))])
                     (minted (record w [EvGmailGet auth (msg_id m); EvUuid])))
          as (new & Hr & Hm & Hi & Hu & Hp).
        exists (Mailbox.normalized cfg userName m
                  (Mailbox.subject_of headers) d (uuid E (w_uuids w)) :: new).
        simpl in Hi, Hu. rewrite Hr, Hu, <- app_assoc.
        split; [reflexivity |]. split; [simpl; now rewrite Hm |].
        split; [simpl; now rewrite Hi |]. split; [simpl; lia |].
        constructor; [reflexivity | exact Hp].
      * destruct (IH emailData
                     (record (record w [EvGmailGet auth (msg_id m)])
                        [EvConsoleError ("Error fetching message "
                                           +:+ msg_id m +:+ ":") (Some e)]))
          as (new & Hr & Hm & Hi & Hu & Hp).
        exists new. repeat split; auto.
    + destruct (IH emailData
                   (record (record w [EvGmailGet auth (msg_id m)])
                      [EvConsoleError ("Error fetching message "
                                         +:+ msg_id m +:+ ":") (Some e)]))
        as (new & Hr & Hm & Hi & Hu & Hp).
      exists new. repeat split; auto.
Qed.

Lemma getLatestEmails_result (userName : string) (w : world)
      (listing : option (list message)) :
  gmail_list E auth (q cfg) (maxResults cfg) = Ok listing ->
  let messages := match listing with Some l => l | None => [] end in
  let run := Mailbox.getLatestEmails E cfg auth userName w in
  exists emails,
    fst run = Ok emails
    /\ map mail emails
       = map Batch.link (List.filter (Batch.fetchable E auth) messages)
    /\ map id emails = map (uuid E) (seq (w_uuids w) (length emails))
    /\ w_uuids (snd run) = w_uuids w + length emails
    /\ Forall (fun r => person r = userName) emails.
Proof.
  intros Hl messages run. subst run. rewrite getLatestEmails_run, Hl.
  cbv zeta. destruct listing as [[|m rest]|].
  - exists []. simpl. repeat split; auto.
  - destruct (fetch_all_result userName (m :: rest) []
                (record w [EvGmailList auth (q cfg) (maxResults cfg)]))
      as (new & Hr & Hm & Hi & Hu & Hp).
    exists new. repeat split; auto.
  - exists []. simpl. repeat split; auto.
Qed.

End BatchFacts.

(** X1: whatever the listing holds, the batch returns one record per message
    whose metadata fetch and date conversion go through, in listing order
    and with that message's deep link; the records carry the requested user
    name and the next identifiers of [uuidv4], one per record, so that no
    two records share an identifier when the generator never repeats. *)
Theorem batch_keeps_the_fetchable_messages_in_order
        (E : Env) (cfg : query) (auth : client) (userName : string)
        (w : world) (listing : option (list message)) :
  gmail_list E auth (q cfg) (maxResults cfg) = Ok listing ->
  let messages := match listing with Some l => l | None => [] end in
  let run := Mailbox.getLatestEmails E cfg auth userName w in
  exists emails,
    fst run = Ok emails
    /\ map mail emails
       = map Batch.link (List.filter (Batch.fetchable E auth) messages)
    /\ length emails <= length messages
    /\ map id emails = map (uuid E) (seq (w_uuids w) (length emails))
    /\ w_uuids (snd run) = w_uuids w + length emails
    /\ Forall (fun r => person r = userName) emails
    /\ ((forall i j, uuid E i = uuid E j -> i = j) ->
        List.NoDup (map id emails)).
Proof.
  intros Hl messages run.
  destruct (getLatestEmails_result E cfg auth userName w listing Hl)
    as (emails & Hr & Hm & Hi & Hu & Hp).
  exists emails. split; [exact Hr |]. split; [exact Hm |]. split.
  - rewrite <- (length_map mail), Hm, length_map. apply filter_length_le.
  - split; [exact Hi |]. split; [exact Hu |]. split; [exact Hp |].
    intros Hinj. rewrite Hi. apply Finite.Injective_map_NoDup.
    + exact Hinj.
    + apply seq_NoDup.
Qed.

Lemma batch_keeps_the_fetchable_messages_in_order_witness :
  let auth := Demo.a_client (Demo.grant "of-b") in
  gmail_list Demo.env auth (q Mailbox.query_part_000) 10
  = Ok (Some Demo.inbox)
  /\ exists emails,
       fst (Mailbox.getLatestEmails Demo.env Mailbox.query_part_000 auth "b"
              (Demo.world_of Demo.disk None))
       = Ok emails
       /\ map mail emails
          = [ "https://mail.google.com/mail/u/0/#inbox/m1";
              "https://mail.google.com/mail/u/0/#inbox/m3" ].
Proof.
  intros auth. split; [reflexivity |].
  destruct (batch_keeps_the_fetchable_messages_in_order Demo.env
              Mailbox.query_part_000 auth "b" (Demo.world_of Demo.disk None)
              (Some Demo.inbox) eq_refl)
    as (emails & Hr & Hm & _).
  exists emails. split; [exact Hr | exact Hm].
Defined.

(** ** One mailbox under many names *)

Section Relabel.

Variable E : Env.
Variable cfg : query.
Variable auth : client.

Lemma fetch_all_relabel (n1 n2 : string) (messages : list message) :
  forall (emailData : list email) (w : world),
    Mailbox.fetch_all E cfg auth n2 messages
      (map (Batch.relabel n2) emailData) w
    = Batch.relabelled n2 (Mailbox.fetch_all E cfg auth n1 messages emailData w).
Proof.
  induction messages as [|m rest IH]; intros emailData w.
  - reflexivity.
  - rewrite !fetch_all_cons, !fetch_one_run.
    destruct (gmail_get E auth (msg_id m)) as [headers|e]; [| apply IH].
    destruct (Mailbox.date_of E headers) as [d|e]; [| apply IH].
    rewrite <- IH, map_app. reflexivity.
Qed.

Lemma getLatestEmails_relabel (n1 n2 : string) (w : world) :
  Mailbox.getLatestEmails E cfg auth n2 w
  = Batch.relabelled n2 (Mailbox.getLatestEmails E cfg auth n1 w).
Proof.
  rewrite !getLatestEmails_run. cbv zeta.
  destruct (gmail_list E auth (q cfg) (maxResults cfg))
    as [[[|m rest]|]|e]; try reflexivity.
  apply (fetch_all_relabel n1 n2 (m :: rest) []).
Qed.

End Relabel.

(** X2: in [server.js], with a client in the cache, two [/qr/:name] requests
    for two names do the same things and answer with the same records, up to
    the name written into [person]: what one name is shown, every name is
    shown. *)
Theorem single_cache_shows_every_name_the_same_mail
        (E : Env) (c : client) (w : world) (n1 n2 : string) :
  w_authClient w = Some c ->
  snd (SingleCache.qr_handler E n2 w) = snd (SingleCache.qr_handler E n1 w)
  /\ (forall emails,
        fst (SingleCache.qr_handler E n1 w) = Ok (Reply 200 (Emails emails)) ->
        fst (SingleCache.qr_handler E n2 w)
        = Ok (Reply 200 (Emails (map (Batch.relabel n2) emails))))
  /\ (forall b,
        fst (SingleCache.qr_handler E n1 w) = Ok (Reply 500 b) ->
        fst (SingleCache.qr_handler E n2 w) = Ok (Reply 500 b)).
Proof.
  intros Hc. rewrite !(qr_handler_cached_run E c _ w Hc).
  rewrite (getLatestEmails_relabel E Mailbox.query_server_js c n1 n2 w).
  destruct (Mailbox.getLatestEmails E Mailbox.query_server_js c n1 w)
    as [[emails|e] w1]; simpl.
  - rewrite length_map. split; [reflexivity |]. split.
    + intros l [= <-]. now destruct emails.
    + discriminate.
  - split; [reflexivity |]. split; [discriminate | auto].
Qed.

Lemma single_cache_shows_every_name_the_same_mail_witness :
  let c := Demo.a_client (Demo.grant "local") in
  let w := Demo.world_of Demo.disk (Some c) in
  w_authClient w = Some c
  /\ snd (SingleCache.qr_handler Demo.env "bob" w)
     = snd (SingleCache.qr_handler Demo.env "ann" w)
  /\ map mail
       match fst (SingleCache.qr_handler Demo.env "bob" w) with
       | Ok (Reply _ (Emails l)) => l
       | _ => []
       end
     = [ "https://mail.google.com/mail/u/0/#inbox/m1";
         "https://mail.google.com/mail/u/0/#inbox/m3" ].
Proof.
  intros c w. split; [reflexivity |].
  split; [| vm_compute; reflexivity].
  exact (proj1 (single_cache_shows_every_name_the_same_mail Demo.env c w
                  "ann" "bob" eq_refl)).
Defined.

(** ** The answers of the per-user handlers *)

(** X3: no request makes a per-user handler throw, and each answers within
    its own short list: [/authenticate/:name] redirects or answers 500;
    [/oauth2callback] answers 400 (missing parameter), 500 or 200, the 200
    naming the [state] it was given; [/qr/:name] answers 200 with records,
    400 with the hint for that name, or 500 with the message of the error. *)
Theorem per_user_requests_are_always_answered
        (E : Env) (v : variant) (app : json) (name : string)
        (code state : option string) (w : world) :
  ((exists url,
       fst (PerUser.authenticate_handler E app name w) = Ok (Redirect url))
   \/ fst (PerUser.authenticate_handler E app name w)
      = Ok (Reply 500 (Text "Error generating auth URL.")))
  /\ (fst (PerUser.oauth2callback E v app code state w)
      = Ok (Reply 400 (Text "Missing code or state param."))
      \/ fst (PerUser.oauth2callback E v app code state w)
         = Ok (PerUser.callback_failure v)
      \/ exists s,
           state = Some s
           /\ fst (PerUser.oauth2callback E v app code state w)
              = Ok (PerUser.callback_success E v s))
  /\ ((exists emails,
         fst (PerUser.qr_handler E v app name w)
         = Ok (Reply 200 (Emails emails)))
      \/ fst (PerUser.qr_handler E v app name w)
         = Ok (Reply 400 (Envelope (PerUser.not_authenticated name) None))
      \/ exists e,
           fst (PerUser.qr_handler E v app name w)
           = Ok (Reply 500 (Envelope "Failed to fetch emails"
                                     (Some (message_of E e))))).
Proof.
  split; [| split].
  - rewrite authenticate_handler_run.
    destruct (PerUser.new_client app) as [c0|e]; [| now right].
    cbv zeta. destruct (generateAuthUrl E _ _) as [url|e];
      [left; now exists url | now right].
  - assert (Hm : fst (PerUser.missing_param v w)
                 = Ok (Reply 400 (Text "Missing code or state param."))).
    { destruct (missing_param_run v w) as (new & -> & _). reflexivity. }
    unfold PerUser.oauth2callback.
    destruct code as [c|]; [| now left].
    destruct state as [s|]; [| now left].
    destruct (PerUser.falsy (Some c) || PerUser.falsy (Some s));
      [now left |].
    right. rewrite exchange_and_store_run.
    destruct (PerUser.new_client app) as [c0|e]; [| now left].
    cbv zeta. destruct (getToken E _ c) as [tokens|e]; [| now left].
    destruct (Fs.writeFile (w_fs w) _ _); [| now left].
    right. now exists s.
  - rewrite qr_handler_paths.
    destruct (PerUser.new_client app) as [c0|e];
      [| right; right; now exists e].
    cbv zeta. destruct (PerUser.isAuthorized _); [| right; now left].
    destruct (Mailbox.getLatestEmails E (PerUser.query_of v) _ name _)
      as [[emails|e] w1].
    + left. now exists emails.
    + right. right. now exists e.
Qed.

(** X4: a [credentials.json] that parses but holds no usable registration
    passes the startup of [part_001]; every handler then answers 500 before
    doing anything else: no file is read or written and the provider is not
    called, the only effect being the console line of the [catch]. *)
Theorem ill_shaped_registration_fails_every_request
        (E : Env) (v : variant) (app : json) (e : error) (text : string)
        (name code state : string) (w : world) :
  Fs.readFile (w_fs w) (PerUser.CREDENTIALS_PATH E) = Ok text ->
  Json.parse text = Ok app ->
  PerUser.new_client app = Throw e ->
  PerUser.falsy (Some code) = false ->
  PerUser.falsy (Some state) = false ->
  fst (PerUser.main E Part001 w) = Listening 5001 app
  /\ PerUser.authenticate_handler E app name w
     = (Ok (Reply 500 (Text "Error generating auth URL.")),
        record w [EvConsoleError "" (Some e)])
  /\ PerUser.oauth2callback E v app (Some code) (Some state) w
     = (Ok (PerUser.callback_failure v),
        record w [EvConsoleError (PerUser.callback_failure_log v) (Some e)])
  /\ PerUser.qr_handler E v app name w
     = (Ok (Reply 500 (Envelope "Failed to fetch emails"
                                (Some (message_of E e)))),
        record w [EvConsoleError "Error in /qr/:name:" (Some e)]).
Proof.
  intros Hread Hparse Hc Hcode Hstate. split; [| split; [| split]].
  - now rewrite main_part_001, Hread, Hparse.
  - now rewrite authenticate_handler_run, Hc.
  - unfold PerUser.oauth2callback. rewrite Hcode, Hstate. cbn [orb].
    now rewrite exchange_and_store_run, Hc.
  - now rewrite qr_handler_paths, Hc.
Qed.

Lemma ill_shaped_registration_fails_every_request_witness :
  let w := Demo.world_of Fixture.disk_no_registration None in
  Json.parse "{}" = Ok (JObject [])
  /\ PerUser.new_client (JObject []) = Throw TypeError
  /\ fst (PerUser.main Demo.env Part001 w) = Listening 5001 (JObject [])
  /\ fst (PerUser.qr_handler Demo.env Part001 (JObject []) "b" w)
     = Ok (Reply 500 (Envelope "Failed to fetch emails" (Some "error"))).
Proof.
  intros w. split; [reflexivity |]. split; [reflexivity |].
  destruct (ill_shaped_registration_fails_every_request Demo.env Part001
              (JObject []) TypeError "{}" "b" "good-code" "b" w
              eq_refl eq_refl eq_refl eq_refl eq_refl)
    as (Hmain & _ & _ & Hqr).
  split; [exact Hmain |]. now rewrite Hqr.
Defined.

(** X5: for a user who passes the gate, [/qr/:name] answers by what the
    listing call does: when it throws, 500 with the message of its error;
    otherwise 200 with one record per fetchable message in listing order, so
    the empty array when the listing is missing or empty.  Either way the
    file system is left as it was. *)
Theorem qr_answers_by_the_listing
        (E : Env) (v : variant) (app : json) (u : string) (w : world)
        (c0 : client) :
  PerUser.new_client app = Ok c0 ->
  let c := PerUser.restored E (w_fs w) c0 u in
  let answer := PerUser.qr_handler E v app u w in
  PerUser.isAuthorized c = true ->
  w_fs (snd answer) = w_fs w
  /\ match gmail_list E c (q (PerUser.query_of v))
             (maxResults (PerUser.query_of v)) with
     | Throw e =>
         fst answer
         = Ok (Reply 500 (Envelope "Failed to fetch emails"
                                   (Some (message_of E e))))
     | Ok listing =>
         let messages := match listing with Some l => l | None => [] end in
         exists emails,
           fst answer = Ok (Reply 200 (Emails emails))
           /\ map mail emails
              = map Batch.link (List.filter (Batch.fetchable E c) messages)
           /\ (messages = [] -> emails = [])
     end.
Proof.
  intros Hc c answer Ha. subst answer.
  rewrite qr_handler_paths, Hc. cbv zeta. fold c. rewrite Ha.
  pose proof (getLatestEmails_quiet E (PerUser.query_of v) c u
                (record w [EvReadFile (PerUser.getTokenPathForUser E u)]))
    as (Hfs & _).
  destruct (gmail_list E c (q (PerUser.query_of v))
              (maxResults (PerUser.query_of v))) as [listing|e] eqn:Hl.
  - destruct (getLatestEmails_result E (PerUser.query_of v) c u
                (record w [EvReadFile (PerUser.getTokenPathForUser E u)])
                listing Hl) as (emails & Hr & Hm & _).
    destruct (Mailbox.getLatestEmails E (PerUser.query_of v) c u _)
      as [[l|e] w1]; simpl in Hr, Hfs; [| discriminate].
    injection Hr as ->. split; [exact Hfs |].
    exists emails. split; [reflexivity |]. split; [exact Hm |].
    intros Hnil. rewrite Hnil in Hm. now destruct emails.
  - pose proof (proj2 (mailbox_failure_iff E (PerUser.query_of v) c u
                         (record w [EvReadFile
                                      (PerUser.getTokenPathForUser E u)]) e)
                  Hl) as Hr.
    destruct (Mailbox.getLatestEmails E (PerUser.query_of v) c u _)
      as [[l|e'] w1]; simpl in Hr, Hfs; [discriminate |].
    injection Hr as ->. split; [exact Hfs | reflexivity].
Qed.

Lemma qr_answers_by_the_listing_witness :
  let w := Demo.world_of Demo.disk None in
  PerUser.new_client Demo.registration = Ok (Demo.a_client (JObject []))
  /\ PerUser.isAuthorized
       (PerUser.restored Demo.env Demo.disk (Demo.a_client (JObject [])) "b")
     = true
  /\ w_fs (snd (PerUser.qr_handler Demo.env Part000 Demo.registration "b" w))
     = Demo.disk.
Proof.
  intros w. split; [reflexivity |]. split; [vm_compute; reflexivity |].
  exact (proj1 (qr_answers_by_the_listing Demo.env Part000 Demo.registration
                  "b" w _ eq_refl ltac:(vm_compute; reflexivity))).
Defined.

(** ** More on the callback *)

(** X6: when the exchange succeeds and the write of the token file fails
    (the file is read-only, or its directory does not exist), the callback
    answers 500 and the file system is unchanged, although the code has been
    exchanged at the provider: the grant received is stored nowhere. *)
Theorem callback_loses_the_grant_when_the_write_fails
        (E : Env) (v : variant) (app : json) (code state : string) (w : world)
        (c0 : client) (tokens : json) (e : error) :
  PerUser.new_client app = Ok c0 ->
  PerUser.falsy (Some code) = false ->
  PerUser.falsy (Some state) = false ->
  getToken E (PerUser.restored E (w_fs w) c0 state) code = Ok tokens ->
  Fs.writeFile (w_fs w) (PerUser.getTokenPathForUser E state)
    (stringify E 2 tokens) = Throw e ->
  let answer := PerUser.oauth2callback E v app (Some code) (Some state) w in
  fst answer = Ok (PerUser.callback_failure v)
  /\ w_fs (snd answer) = w_fs w
  /\ exists new,
       w_trace (snd answer) = w_trace w ++ new
       /\ In (EvGetToken (PerUser.restored E (w_fs w) c0 state) code) new
       /\ In (EvConsoleError (PerUser.callback_failure_log v) (Some e)) new.
Proof.
  intros Hc Hcode Hstate Hex Hw answer. subst answer.
  unfold PerUser.oauth2callback. rewrite Hcode, Hstate. cbn [orb].
  rewrite exchange_and_store_run, Hc. cbv zeta. rewrite Hex, Hw.
  split; [reflexivity |]. split; [reflexivity |].
  eexists. split; [reflexivity |]. simpl. auto 6.
Qed.

Lemma callback_loses_the_grant_when_the_write_fails_witness :
  let w := Demo.world_of Fixture.disk_read_only None in
  Fs.writeFile Fixture.disk_read_only "/srv/app/token-b.json"
    (stringify Demo.env 2 (Demo.grant "fresh"))
  = Throw (FsError EACCES "/srv/app/token-b.json")
  /\ PerUser.oauth2callback Demo.env Part001 Demo.registration
       (Some "good-code") (Some "b") w
     = (Ok (Reply 500 (Text "Authentication failed.")),
        snd (PerUser.oauth2callback Demo.env Part001 Demo.registration
               (Some "good-code") (Some "b") w))
  /\ w_fs (snd (PerUser.oauth2callback Demo.env Part001 Demo.registration
                  (Some "good-code") (Some "b") w))
     = Fixture.disk_read_only.
Proof.
  intros w. split; [vm_compute; reflexivity |].
  destruct (callback_loses_the_grant_when_the_write_fails Demo.env Part001
              Demo.registration "good-code" "b" w _ (Demo.grant "fresh")
              (FsError EACCES "/srv/app/token-b.json")
              eq_refl eq_refl eq_refl ltac:(vm_compute; reflexivity)
              ltac:(vm_compute; reflexivity))
    as (Hr & Hfs & _).
  split; [| exact Hfs].
  rewrite (surjective_pairing (PerUser.oauth2callback _ _ _ _ _ _)) at 1.
  now rewrite Hr.
Defined.

(** X7: a [code] or a [state] that is present but empty is treated like a
    missing one: the callback answers 400 and neither the file system nor
    the provider is touched. *)
Theorem callback_rejects_empty_parameter
        (E : Env) (v : variant) (app : json) (code state : option string)
        (w : world) :
  code = Some "" \/ state = Some "" ->
  let answer := PerUser.oauth2callback E v app code state w in
  fst answer = Ok (Reply 400 (Text "Missing code or state param."))
  /\ w_fs (snd answer) = w_fs w
  /\ exists new,
       w_trace (snd answer) = w_trace w ++ new
       /\ forallb (fun e => negb (Trace.is_store e || Trace.is_exchange e)) new
          = true.
Proof.
  intros H answer.
  assert (Hrun : answer = PerUser.missing_param v w).
  { subst answer. unfold PerUser.oauth2callback.
    destruct code as [c|]; [| reflexivity].
    destruct state as [s|]; [| reflexivity].
    destruct H as [[= ->] | [= ->]]; [reflexivity |].
    now rewrite orb_true_r. }
  destruct (missing_param_run v w) as (new & Hnew & Hquiet).
  rewrite Hrun, Hnew. simpl. repeat split. now exists new.
Qed.

Lemma callback_rejects_empty_parameter_witness :
  fst (PerUser.oauth2callback Demo.env Part000 Demo.registration
         (Some "good-code") (Some "") (Demo.world_of Demo.disk None))
  = Ok (Reply 400 (Text "Missing code or state param.")).
Proof.
  exact (proj1 (callback_rejects_empty_parameter Demo.env Part000
                  Demo.registration (Some "good-code") (Some "")
                  (Demo.world_of Demo.disk None) (or_intror eq_refl))).
Defined.

(** ** The Credential Store: round trip and overwrite *)

Section StoreFacts.

Variable E : Env.

Lemma field_some_truthy (tokens : json) :
  Json.truthy tokens && Js.truthy (Js.field tokens "refresh_token")
  = Js.truthy (Js.field tokens "refresh_token").
Proof. destruct tokens; simpl; now rewrite ?andb_false_r. Qed.

(** A file that is there and readable is restored as its parsed text. *)
Lemma restored_of_text (fs : filesystem) (c : client) (u text : string)
      (tokens : json) :
  Fs.readFile fs (PerUser.getTokenPathForUser E u) = Ok text ->
  Json.parse text = Ok tokens ->
  PerUser.restored E fs c u = with_credentials c tokens.
Proof. intros Hr Hp. unfold PerUser.restored. now rewrite Hr, Hp. Qed.

(** Writing twice is writing the second text. *)
Lemma writeFile_twice (fs fs1 : filesystem) (p t1 t2 : string) :
  Fs.writeFile fs p t1 = Ok fs1 ->
  Fs.writeFile fs1 p t2 = Fs.writeFile fs p t2.
Proof.
  unfold Fs.writeFile. intros H.
  destruct (fs !! p) as [[d|c r wr]|] eqn:Hp; try discriminate.
  - destruct wr; [| discriminate]. injection H as <-.
    rewrite lookup_insert_eq. now rewrite insert_insert_eq.
  - destruct (fs !! Path.parent_dir p) as [[[|]|]|] eqn:Hd; try discriminate.
    injection H as <-. rewrite lookup_insert_eq. now rewrite insert_insert_eq.
Qed.

End StoreFacts.

Lemma writeFile_then_read (fs fs' : filesystem) (p text : string) :
  Fs.writeFile fs p text = Ok fs' ->
  (forall old wr, fs !! p <> Some (File old false wr)) ->
  Fs.readFile fs' p = Ok text.
Proof.
  unfold Fs.writeFile, Fs.readFile. intros H Hreadable.
  destruct (fs !! p) as [[d|c r wr]|] eqn:Hp; try discriminate.
  - destruct wr; [| discriminate]. injection H as <-.
    rewrite lookup_insert_eq. destruct r; [reflexivity |].
    now destruct (Hreadable c true).
  - destruct (fs !! Path.parent_dir p) as [[[|]|]|]; try discriminate.
    injection H as <-. now rewrite lookup_insert_eq.
Qed.

(** X8: round trip of a grant through the store.  When the callback
    exchanges a code for tokens and its write succeeds, on a token file that
    was not an unreadable one, and the text written parses back to the
    tokens, then the factory afterwards restores exactly these tokens for
    the identity [state], and that identity passes the gate of [/qr/:name]
    exactly when the tokens hold a truthy [refresh_token]. *)
Theorem callback_grant_is_restored
        (E : Env) (v : variant) (app : json) (code state : string) (w : world)
        (c0 : client) (tokens : json) (fs' : filesystem) :
  PerUser.new_client app = Ok c0 ->
  PerUser.falsy (Some code) = false ->
  PerUser.falsy (Some state) = false ->
  getToken E (PerUser.restored E (w_fs w) c0 state) code = Ok tokens ->
  Fs.writeFile (w_fs w) (PerUser.getTokenPathForUser E state)
    (stringify E 2 tokens) = Ok fs' ->
  (forall old wr,
      w_fs w !! PerUser.getTokenPathForUser E state
      <> Some (File old false wr)) ->
  Json.parse (stringify E 2 tokens) = Ok tokens ->
  let answer := PerUser.oauth2callback E v app (Some code) (Some state) w in
  fst answer = Ok (PerUser.callback_success E v state)
  /\ w_fs (snd answer) = fs'
  /\ fst (PerUser.load E app state (snd answer)) = Ok tokens
  /\ PerUser.isAuthorized (PerUser.restored E (w_fs (snd answer)) c0 state)
     = Js.truthy (Js.field tokens "refresh_token").
Proof.
  intros Hc Hcode Hstate Hex Hw Hreadable Hparse answer. subst answer.
  unfold PerUser.oauth2callback. rewrite Hcode, Hstate. cbn [orb].
  rewrite exchange_and_store_run, Hc. cbv zeta. rewrite Hex, Hw.
  pose proof (writeFile_then_read _ _ _ _ Hw Hreadable) as Hread.
  split; [reflexivity |]. split; [reflexivity |].
  rewrite load_result, Hc. cbn [snd]. unfold record, with_fs. cbn [w_fs].
  rewrite (restored_of_text E fs' c0 state _ _ Hread Hparse).
  split; [reflexivity |]. unfold PerUser.isAuthorized. simpl credentials.
  apply field_some_truthy.
Qed.

Lemma callback_grant_is_restored_witness :
  let w := Demo.world_of Demo.disk None in
  let answer :=
    PerUser.oauth2callback Demo.env Part000 Demo.registration
      (Some "good-code") (Some "carol") w in
  Json.parse (stringify Demo.env 2 (Demo.grant "fresh"))
  = Ok (Demo.grant "fresh")
  /\ fst (PerUser.load Demo.env Demo.registration "carol" (snd answer))
     = Ok (Demo.grant "fresh")
  /\ PerUser.isAuthorized
       (PerUser.restored Demo.env (w_fs (snd answer))
          (Demo.a_client (JObject [])) "carol")
     = true.
Proof.
  intros w answer. split; [vm_compute; reflexivity |].
  assert (Hw : exists fs',
             Fs.writeFile (w_fs w)
               (PerUser.getTokenPathForUser Demo.env "carol")
               (stringify Demo.env 2 (Demo.grant "fresh")) = Ok fs').
  { eexists. vm_compute. reflexivity. }
  destruct Hw as [fs' Hw].
  destruct (callback_grant_is_restored Demo.env Part000 Demo.registration
              "good-code" "carol" w (Demo.a_client (JObject []))
              (Demo.grant "fresh") fs' eq_refl eq_refl eq_refl eq_refl Hw)
    as (_ & _ & Hload & Hauth).
  - intros old wr H. vm_compute in H. discriminate.
  - vm_compute. reflexivity.
  - split; [exact Hload | exact Hauth].
Defined.

(** X9: a later save replaces an earlier one.  Saving a grant for an
    identity after another grant was saved for it ends in the same file
    system, with the same outcome, as saving the later grant alone. *)
Theorem last_save_wins
        (E : Env) (u : string) (g1 g2 : json) (w : world) :
  let once := PerUser.save E u g2 w in
  let twice := PerUser.save E u g2 (snd (PerUser.save E u g1 w)) in
  fst twice = fst once
  /\ w_fs (snd twice) = w_fs (snd once)
  /\ (fst twice = Ok tt ->
      exists r wr,
        w_fs (snd twice) !! PerUser.getTokenPathForUser E u
        = Some (File (stringify E 2 g2) r wr)).
Proof.
  intros once twice. subst once twice. rewrite !save_run. cbv zeta.
  destruct (Fs.writeFile (w_fs w) (PerUser.getTokenPathForUser E u)
              (stringify E 2 g1)) as [fs1|e1] eqn:H1.
  - simpl snd. change (w_fs (with_fs _ fs1)) with fs1.
    rewrite (writeFile_twice _ _ _ _ (stringify E 2 g2) H1).
    destruct (Fs.writeFile (w_fs w) (PerUser.getTokenPathForUser E u)
                (stringify E 2 g2)) as [fs2|e2] eqn:H2.
    + simpl. split; [reflexivity |]. split; [reflexivity |].
      intros _. exact (proj1 (writeFile_lookup _ _ _ _ H2)).
    + exfalso. unfold Fs.writeFile in H1, H2.
      destruct (w_fs w !! PerUser.getTokenPathForUser E u) as [[d|c r wr]|];
        try discriminate.
      * destruct wr; discriminate.
      * destruct (w_fs w !! Path.parent_dir _) as [[[|]|]|]; discriminate.
  - simpl snd. change (w_fs (record w _)) with (w_fs w).
    destruct (Fs.writeFile (w_fs w) (PerUser.getTokenPathForUser E u)
                (stringify E 2 g2)) as [fs2|e2] eqn:H2.
    + simpl. split; [reflexivity |]. split; [reflexivity |].
      intros _. exact (proj1 (writeFile_lookup _ _ _ _ H2)).
    + simpl. split; [reflexivity |]. split; [reflexivity |].
      intros H. discriminate H.
Qed.

(** ** What the handlers leave alone *)

(** X10: of the three per-user handlers only the callback writes, and it
    writes one file: [/authenticate/:name] and [/qr/:name] leave the file
    system as it was, and after [/oauth2callback] every path other than the
    token path of [state] holds what it held. *)
Theorem only_the_callback_writes_and_only_its_token_file
        (E : Env) (v : variant) (app : json) (name : string)
        (code : option string) (state : string) (w : world) :
  w_fs (snd (PerUser.authenticate_handler E app name w)) = w_fs w
  /\ w_fs (snd (PerUser.qr_handler E v app name w)) = w_fs w
  /\ forall p,
       p <> PerUser.getTokenPathForUser E state ->
       w_fs (snd (PerUser.oauth2callback E v app code (Some state) w)) !! p
       = w_fs w !! p.
Proof.
  split; [| split].
  - destruct (authenticate_handler_records E app name w) as [evs ->].
    reflexivity.
  - rewrite qr_handler_paths.
    destruct (PerUser.new_client app) as [c0|e]; [| reflexivity].
    cbv zeta. destruct (PerUser.isAuthorized _); [| reflexivity].
    pose proof (getLatestEmails_quiet E (PerUser.query_of v)
                  (PerUser.restored E (w_fs w) c0 name) name
                  (record w [EvReadFile (PerUser.getTokenPathForUser E name)]))
      as (Hfs & _).
    destruct (Mailbox.getLatestEmails E (PerUser.query_of v) _ name _)
      as [[emails|e] w1]; exact Hfs.
  - intros p Hp.
    assert (Hm : w_fs (snd (PerUser.missing_param v w)) = w_fs w).
    { destruct (missing_param_run v w) as (new & -> & _). reflexivity. }
    unfold PerUser.oauth2callback.
    destruct code as [c|]; [| now rewrite Hm].
    destruct (PerUser.falsy (Some c) || PerUser.falsy (Some state));
      [now rewrite Hm |].
    rewrite exchange_and_store_run.
    destruct (PerUser.new_client app) as [c0|e]; [| reflexivity].
    cbv zeta. destruct (getToken E _ c) as [tokens|e]; [| reflexivity].
    destruct (Fs.writeFile (w_fs w) _ _) as [fs'|e] eqn:Hw; [| reflexivity].
    exact (proj2 (writeFile_lookup _ _ _ _ Hw) p Hp).
Qed.

Lemma credentials_file_plain : Path.plain "credentials.json" = true.
Proof. reflexivity. Qed.

(** The token path of a plain identity is not the path of
    [credentials.json]. *)
Lemma token_path_is_not_credentials_path (E : Env) (u : string) :
  PerUser.plain_identity u = true ->
  PerUser.CREDENTIALS_PATH E <> PerUser.getTokenPathForUser E u.
Proof.
  intros Hu. unfold PerUser.CREDENTIALS_PATH, PerUser.getTokenPathForUser.
  destruct (join_plain (dirname E)) as [p Hp].
  rewrite (Hp _ credentials_file_plain eq_refl), (Hp _ Hu (token_file_last u)).
  intros H. apply append_inv_head in H. discriminate.
Qed.

(** X11: a callback whose [state] is a plain identity never changes
    [credentials.json], whatever the code and whatever the provider
    answers. *)
Theorem callback_of_plain_state_keeps_the_registration_file
        (E : Env) (v : variant) (app : json) (code : option string)
        (state : string) (w : world) :
  PerUser.plain_identity state = true ->
  w_fs (snd (PerUser.oauth2callback E v app code (Some state) w))
  !! PerUser.CREDENTIALS_PATH E
  = w_fs w !! PerUser.CREDENTIALS_PATH E.
Proof.
  intros Hs.
  pose proof (token_path_is_not_credentials_path E state Hs) as Hne.
  assert (Hm : w_fs (snd (PerUser.missing_param v w)) = w_fs w).
  { destruct (missing_param_run v w) as (new & -> & _). reflexivity. }
  unfold PerUser.oauth2callback.
  destruct code as [c|]; [| now rewrite Hm].
  destruct (PerUser.falsy (Some c) || PerUser.falsy (Some state));
    [now rewrite Hm |].
  rewrite exchange_and_store_run.
  destruct (PerUser.new_client app) as [c0|e]; [| reflexivity].
  cbv zeta. destruct (getToken E _ c) as [tokens|e]; [| reflexivity].
  destruct (Fs.writeFile (w_fs w) _ _) as [fs'|e] eqn:Hw; [| reflexivity].
  exact (proj2 (writeFile_lookup _ _ _ _ Hw) _ Hne).
Qed.

Lemma callback_of_plain_state_keeps_the_registration_file_witness :
  PerUser.plain_identity "carol" = true
  /\ w_fs (snd (PerUser.oauth2callback Demo.env Part001 Demo.registration
                  (Some "good-code") (Some "carol")
                  (Demo.world_of Demo.disk None)))
     !! "/srv/app/credentials.json"
     = Some (File Demo.credentials_json true true).
Proof.
  split; [reflexivity |].
  rewrite <- (eq_refl : PerUser.CREDENTIALS_PATH Demo.env
                        = "/srv/app/credentials.json").
  rewrite (callback_of_plain_state_keeps_the_registration_file Demo.env
             Part001 Demo.registration (Some "good-code") "carol"
             (Demo.world_of Demo.disk None) eq_refl).
  vm_compute. reflexivity.
Defined.

(** ** [server.js]: getting the authorization client *)

Section AuthClient.

Variable E : Env.

Lemma loadSavedCredentialsIfExist_run (w : world) :
  SingleCache.loadSavedCredentialsIfExist E w
  = match Fs.readFile (w_fs w) (SingleCache.TOKEN_PATH E) with
    | Throw _ => (Ok None, record w [EvReadFile (SingleCache.TOKEN_PATH E)])
    | Ok content =>
        match Json.parse content with
        | Throw _ =>
            (Ok None, record w [EvReadFile (SingleCache.TOKEN_PATH E)])
        | Ok v =>
            (Ok match fromJSON E v with
                | Ok c => Some c
                | Throw _ => None
                end,
             record w [EvReadFile (SingleCache.TOKEN_PATH E); EvFromJSON v])
        end
    end.
Proof.
  unfold SingleCache.loadSavedCredentialsIfExist. run.
  destruct (Fs.readFile (w_fs w) (SingleCache.TOKEN_PATH E)) as [content|e];
    [| reflexivity].
  simpl. destruct (Json.parse content) as [v|e]; [| reflexivity].
  simpl. destruct (fromJSON E v); same_world.
Qed.

(** Every path through [saveCredentials]. *)
Lemma saveCredentials_run (c : client) (w : world) :
  SingleCache.saveCredentials E c w
  = let cred := SingleCache.CREDENTIALS_PATH E in
    let token := SingleCache.TOKEN_PATH E in
    match Fs.readFile (w_fs w) cred with
    | Throw e => (Throw e, record w [EvReadFile cred])
    | Ok content =>
        match Json.parse content with
        | Throw e => (Throw e, record w [EvReadFile cred])
        | Ok keys =>
            match keys with
            | JNull => (Throw TypeError, record w [EvReadFile cred])
            | _ =>
                match (if Js.truthy (Js.field keys "installed")
                       then Js.field keys "installed"
                       else Js.field keys "web") with
                | None | Some JNull =>
                    (Throw TypeError, record w [EvReadFile cred])
                | Some k =>
                    let text :=
                      stringify E 0 (SingleCache.payload_of k c) in
                    match Fs.writeFile (w_fs w) token text with
                    | Ok fs' =>
                        (Ok tt,
                         with_fs (record w [EvReadFile cred;
                                            EvWriteFile token text]) fs')
                    | Throw e =>
                        (Throw e,
                         record w [EvReadFile cred; EvWriteFile token text])
                    end
                end
            end
        end
    end.
Proof.
  cbv zeta. unfold SingleCache.saveCredentials. run.
  destruct (Fs.readFile (w_fs w) (SingleCache.CREDENTIALS_PATH E))
    as [content|e]; [| reflexivity].
  simpl. destruct (Json.parse content) as [keys|e]; [| reflexivity].
  simpl.
  assert (Hkey : forall key,
             match key with
             | Some JNull | None => throw TypeError
             | Some k =>
                 writeFile (SingleCache.TOKEN_PATH E)
                   (stringify E 0 (SingleCache.payload_of k c))
             end (record w [EvReadFile (SingleCache.CREDENTIALS_PATH E)])
             = match key with
               | Some JNull | None =>
                   (Throw TypeError,
                    record w [EvReadFile (SingleCache.CREDENTIALS_PATH E)])
               | Some k =>
                   match Fs.writeFile (w_fs w) (SingleCache.TOKEN_PATH E)
                           (stringify E 0 (SingleCache.payload_of k c)) with
                   | Ok fs' =>
                       (Ok tt,
                        with_fs
                          (record w
                             [EvReadFile (SingleCache.CREDENTIALS_PATH E);
                              EvWriteFile (SingleCache.TOKEN_PATH E)
                                (stringify E 0 (SingleCache.payload_of k c))])
                          fs')
                   | Throw e =>
                       (Throw e,
                        record w
                          [EvReadFile (SingleCache.CREDENTIALS_PATH E);
                           EvWriteFile (SingleCache.TOKEN_PATH E)
                             (stringify E 0 (SingleCache.payload_of k c))])
                   end
               end).
  { intros [k|]; [| reflexivity].
    assert (Hw : writeFile (SingleCache.TOKEN_PATH E)
                   (stringify E 0 (SingleCache.payload_of k c))
                   (record w [EvReadFile (SingleCache.CREDENTIALS_PATH E)])
                 = match Fs.writeFile (w_fs w) (SingleCache.TOKEN_PATH E)
                           (stringify E 0 (SingleCache.payload_of k c)) with
                   | Ok fs' =>
                       (Ok tt,
                        with_fs
                          (record w
                             [EvReadFile (SingleCache.CREDENTIALS_PATH E);
                              EvWriteFile (SingleCache.TOKEN_PATH E)
                                (stringify E 0 (SingleCache.payload_of k c))])
                          fs')
                   | Throw e =>
                       (Throw e,
                        record w
                          [EvReadFile (SingleCache.CREDENTIALS_PATH E);
                           EvWriteFile (SingleCache.TOKEN_PATH E)
                             (stringify E 0 (SingleCache.payload_of k c))])
                   end).
    { run. destruct (Fs.writeFile (w_fs w) _ _); same_world. }
    destruct k; exact Hw || reflexivity. }
  destruct keys; try apply Hkey; reflexivity.
Qed.

(** Every path through [getAuthClient] when the cache is empty. *)
Lemma getAuthClient_fresh_run (w : world) :
  w_authClient w = None ->
  SingleCache.getAuthClient E w
  = match SingleCache.loadSavedCredentialsIfExist E w with
    | (Ok (Some c), w1) => (Ok c, with_authClient w1 c)
    | (Ok None, w1) =>
        match authenticate E with
        | Throw e => (Throw e, record w1 [EvAuthenticate])
        | Ok c =>
            if Json.truthy (credentials c) then
              match SingleCache.saveCredentials E c
                      (record w1 [EvAuthenticate]) with
              | (Ok _, w2) => (Ok c, with_authClient w2 c)
              | (Throw e, w2) => (Throw e, w2)
              end
            else (Ok c, with_authClient (record w1 [EvAuthenticate]) c)
        end
    | (Throw e, w1) => (Throw e, w1)
    end.
Proof.
  intros Hc. unfold SingleCache.getAuthClient, bind, get_authClient,
    set_authClient, ret, lift, emit. rewrite Hc.
  destruct (SingleCache.loadSavedCredentialsIfExist E w) as [[[c|]|e] w1];
    try reflexivity.
  destruct (authenticate E) as [c|e]; [| reflexivity].
  destruct (Json.truthy (credentials c)); [| reflexivity].
  destruct (SingleCache.saveCredentials E c _) as [[[]|e] w2]; reflexivity.
Qed.

Lemma saveCredentials_keeps_cache (c : client) (w : world) :
  w_authClient (snd (SingleCache.saveCredentials E c w)) = w_authClient w.
Proof.
  rewrite saveCredentials_run. cbv zeta.
  destruct (Fs.readFile (w_fs w) _) as [content|e]; [| reflexivity].
  destruct (Json.parse content) as [keys|e]; [| reflexivity].
  assert (Hkey : forall key : option json,
             w_authClient
               (snd match key with
                    | Some JNull | None =>
                        (Throw TypeError,
                         record w [EvReadFile (SingleCache.CREDENTIALS_PATH E)])
                    | Some k =>
                        match Fs.writeFile (w_fs w) (SingleCache.TOKEN_PATH E)
                                (stringify E 0 (SingleCache.payload_of k c))
                        with
                        | Ok fs' =>
                            (Ok tt,
                             with_fs
                               (record w
                                  [EvReadFile (SingleCache.CREDENTIALS_PATH E);
                                   EvWriteFile (SingleCache.TOKEN_PATH E)
                                     (stringify E 0
                                        (SingleCache.payload_of k c))]) fs')
                        | Throw e =>
                            (Throw e,
                             record w
                               [EvReadFile (SingleCache.CREDENTIALS_PATH E);
                                EvWriteFile (SingleCache.TOKEN_PATH E)
                                  (stringify E 0
                                     (SingleCache.payload_of k c))])
                        end
                    end)
             = w_authClient w).
  { intros [k|]; [| reflexivity].
    destruct k; try reflexivity;
      destruct (Fs.writeFile (w_fs w) _ _); reflexivity. }
  destruct keys; try apply Hkey; reflexivity.
Qed.

End AuthClient.

Lemma saved_load_keeps_cache (E : Env) (w : world) :
  (exists saved, fst (SingleCache.loadSavedCredentialsIfExist E w) = Ok saved)
  /\ w_authClient (snd (SingleCache.loadSavedCredentialsIfExist E w))
     = w_authClient w.
Proof.
  rewrite loadSavedCredentialsIfExist_run.
  destruct (Fs.readFile (w_fs w) (SingleCache.TOKEN_PATH E)) as [content|e];
    [| eauto].
  destruct (Json.parse content) as [v|e]; eauto.
Qed.

(** X12: [loadSavedCredentialsIfExist] never throws and changes nothing: it
    returns a client exactly when [token.json] can be read, its text parses
    and [google.auth.fromJSON] accepts the value, and [null] in every other
    case; the file system and the cache are left as they were. *)
Theorem saved_credentials_load_never_throws (E : Env) (w : world) :
  let run := SingleCache.loadSavedCredentialsIfExist E w in
  (exists saved, fst run = Ok saved)
  /\ w_fs (snd run) = w_fs w
  /\ w_authClient (snd run) = w_authClient w
  /\ forall c,
       fst run = Ok (Some c)
       <-> exists content v,
            Fs.readFile (w_fs w) (SingleCache.TOKEN_PATH E) = Ok content
            /\ Json.parse content = Ok v
            /\ fromJSON E v = Ok c.
Proof.
  cbv zeta. rewrite loadSavedCredentialsIfExist_run.
  destruct (Fs.readFile (w_fs w) (SingleCache.TOKEN_PATH E))
    as [content|e] eqn:Hr.
  - destruct (Json.parse content) as [v|e] eqn:Hp.
    + split; [eauto |]. split; [reflexivity |]. split; [reflexivity |].
      intros c. simpl. split.
      * intros H. exists content, v.
        split; [reflexivity |]. split; [exact Hp |].
        destruct (fromJSON E v); congruence.
      * intros (content' & v' & [= <-] & Hp' & Hf).
        rewrite Hp in Hp'. injection Hp' as <-. now rewrite Hf.
    + split; [eauto |]. split; [reflexivity |]. split; [reflexivity |].
      intros c. split; [discriminate |].
      intros (content' & v' & [= <-] & Hp' & _). congruence.
  - split; [eauto |]. split; [reflexivity |]. split; [reflexivity |].
    intros c. split; [discriminate |].
    intros (content' & v' & H & _). discriminate.
Qed.

(** X13: [getAuthClient] fills the cache only when it succeeds.  Called with
    an empty cache, it leaves the cache empty exactly when it throws (the
    consent flow fails, or the token cannot be saved after it), so that the
    next request starts over; when it returns a client, the cache holds that
    client. *)
Theorem failed_getAuthClient_leaves_the_cache_empty (E : Env) (w : world) :
  w_authClient w = None ->
  let run := SingleCache.getAuthClient E w in
  (w_authClient (snd run) = None <-> exists e, fst run = Throw e)
  /\ (forall c, fst run = Ok c <-> w_authClient (snd run) = Some c).
Proof.
  intros Hc run. subst run. rewrite (getAuthClient_fresh_run E w Hc).
  destruct (saved_load_keeps_cache E w) as [Hsaved Hcache].
  destruct (SingleCache.loadSavedCredentialsIfExist E w) as [[[c|]|e] w1];
    simpl in Hsaved, Hcache.
  - split; [split; [discriminate | intros [e H]; discriminate] |].
    intros c'. simpl. split; congruence.
  - destruct (authenticate E) as [c|e].
    + destruct (Json.truthy (credentials c)).
      * pose proof (saveCredentials_keeps_cache E c
                      (record w1 [EvAuthenticate])) as Hs.
        destruct (SingleCache.saveCredentials E c _) as [[[]|e] w2];
          simpl in Hs |- *.
        -- split; [split; [discriminate | intros [e H]; discriminate] |].
           intros c'. split; congruence.
        -- rewrite Hs, Hcache, Hc.
           split; [split; eauto |]. intros c'. split; discriminate.
      * simpl. split; [split; [discriminate | intros [e H]; discriminate] |].
        intros c'. split; congruence.
    + simpl. rewrite Hcache, Hc. split; [split; eauto |].
      intros c'. split; discriminate.
  - destruct Hsaved as [saved H]. discriminate.
Qed.

Lemma failed_getAuthClient_leaves_the_cache_empty_witness :
  let w := Demo.world_of Fixture.disk_no_registration None in
  w_authClient w = None
  /\ fst (SingleCache.getAuthClient Demo.env w) = Throw TypeError
  /\ w_authClient (snd (SingleCache.getAuthClient Demo.env w)) = None.
Proof.
  intros w. split; [reflexivity |]. split; [vm_compute; reflexivity |].
  apply (proj1 (failed_getAuthClient_leaves_the_cache_empty Demo.env w
                  eq_refl)).
  exists TypeError. vm_compute. reflexivity.
Defined.

Lemma saved_credentials_facts (E : Env) (w : world) :
  w_fs (snd (SingleCache.loadSavedCredentialsIfExist E w)) = w_fs w
  /\ w_authClient (snd (SingleCache.loadSavedCredentialsIfExist E w))
     = w_authClient w.
Proof.
  rewrite loadSavedCredentialsIfExist_run.
  destruct (Fs.readFile (w_fs w) (SingleCache.TOKEN_PATH E)) as [content|e];
    [| now split].
  destruct (Json.parse content) as [v|e]; now split.
Qed.

(** X14: with an empty cache and a [token.json] that loads, [getAuthClient]
    returns the loaded client and caches it without running the consent flow
    and without writing: its only effects are the read of [token.json] and
    the call of [google.auth.fromJSON]. *)
Theorem saved_token_spares_the_consent_flow
        (E : Env) (w : world) (content : string) (v : json) (c : client) :
  w_authClient w = None ->
  Fs.readFile (w_fs w) (SingleCache.TOKEN_PATH E) = Ok content ->
  Json.parse content = Ok v ->
  fromJSON E v = Ok c ->
  SingleCache.getAuthClient E w
  = (Ok c,
     with_authClient
       (record w [EvReadFile (SingleCache.TOKEN_PATH E); EvFromJSON v]) c).
Proof.
  intros Hc Hr Hp Hf.
  rewrite (getAuthClient_fresh_run E w Hc), loadSavedCredentialsIfExist_run.
  now rewrite Hr, Hp, Hf.
Qed.

Lemma saved_token_spares_the_consent_flow_witness :
  let w := Demo.world_of Fixture.disk_saved None in
  fst (SingleCache.getAuthClient Demo.env w)
  = Ok (Demo.a_client (Demo.grant "saved"))
  /\ w_fs (snd (SingleCache.getAuthClient Demo.env w)) = Fixture.disk_saved.
Proof.
  intros w.
  rewrite (saved_token_spares_the_consent_flow Demo.env w
             (Demo.print 0 (Demo.grant "saved")) (Demo.grant "saved")
             (Demo.a_client (Demo.grant "saved")));
    [split; reflexivity | reflexivity | vm_compute; reflexivity
     | vm_compute; reflexivity | reflexivity].
Defined.

Lemma payload_fields (k : json) (c : client) :
  Js.field (SingleCache.payload_of k c) "type"
  = Some (JString "authorized_user")
  /\ Js.field (SingleCache.payload_of k c) "client_id"
     = Js.field k "client_id"
  /\ Js.field (SingleCache.payload_of k c) "client_secret"
     = Js.field k "client_secret"
  /\ Js.field (SingleCache.payload_of k c) "refresh_token"
     = Js.field (credentials c) "refresh_token".
Proof.
  unfold SingleCache.payload_of.
  destruct (Js.field k "client_id"), (Js.field k "client_secret"),
    (Js.field (credentials c) "refresh_token"); repeat split.
Qed.

(** X15: the first authorization of [server.js].  With an empty cache and no
    loadable [token.json], when the consent flow returns a client and
    [credentials.json] holds an [installed] or [web] entry, [getAuthClient]
    writes [token.json] and returns and caches the client; the text written
    is that of an object of type [authorized_user] with the entry's
    [client_id] and [client_secret] and the client's [refresh_token], and
    nothing else of the client's credentials. *)
Theorem first_authorization_saves_the_refresh_token
        (E : Env) (w : world) (c : client) (content : string)
        (keys k : json) (fs' : filesystem) :
  w_authClient w = None ->
  fst (SingleCache.loadSavedCredentialsIfExist E w) = Ok None ->
  authenticate E = Ok c ->
  Json.truthy (credentials c) = true ->
  Fs.readFile (w_fs w) (SingleCache.CREDENTIALS_PATH E) = Ok content ->
  Json.parse content = Ok keys ->
  keys <> JNull ->
  (if Js.truthy (Js.field keys "installed") then Js.field keys "installed"
   else Js.field keys "web") = Some k ->
  k <> JNull ->
  let payload := SingleCache.payload_of k c in
  Fs.writeFile (w_fs w) (SingleCache.TOKEN_PATH E) (stringify E 0 payload)
  = Ok fs' ->
  let run := SingleCache.getAuthClient E w in
  fst run = Ok c
  /\ w_authClient (snd run) = Some c
  /\ w_fs (snd run) = fs'
  /\ (exists r wr,
        fs' !! SingleCache.TOKEN_PATH E
        = Some (File (stringify E 0 payload) r wr))
  /\ Js.field payload "type" = Some (JString "authorized_user")
  /\ Js.field payload "client_id" = Js.field k "client_id"
  /\ Js.field payload "client_secret" = Js.field k "client_secret"
  /\ Js.field payload "refresh_token"
     = Js.field (credentials c) "refresh_token"
  /\ Js.field payload "access_token" = None.
Proof.
  intros Hc Hload Hauth Htruthy Hread Hparse Hkeys Hkey Hk payload Hw run.
  assert (Hrun : fst run = Ok c /\ w_authClient (snd run) = Some c
                 /\ w_fs (snd run) = fs').
  { subst run. rewrite (getAuthClient_fresh_run E w Hc).
    pose proof (saved_credentials_facts E w) as (Hfs & _).
    destruct (SingleCache.loadSavedCredentialsIfExist E w) as [[[c'|]|e] w1];
      simpl in Hload, Hfs; try discriminate.
    rewrite Hauth, Htruthy, saveCredentials_run. cbv zeta.
    change (w_fs (record w1 [EvAuthenticate])) with (w_fs w1).
    rewrite Hfs, Hread, Hparse.
    destruct keys; try congruence; rewrite Hkey;
      destruct k; try congruence; fold payload; rewrite Hw;
      repeat split. }
  destruct Hrun as (H1 & H2 & H3).
  destruct (payload_fields k c) as (P1 & P2 & P3 & P4).
  repeat split; auto.
  - exact (proj1 (writeFile_lookup _ _ _ _ Hw)).
  - unfold payload, SingleCache.payload_of.
    destruct (Js.field k "client_id"), (Js.field k "client_secret"),
      (Js.field (credentials c) "refresh_token"); reflexivity.
Qed.

Lemma first_authorization_saves_the_refresh_token_witness :
  let w := Demo.world_of Demo.disk None in
  let run := SingleCache.getAuthClient Demo.env w in
  fst run = Ok (Demo.a_client (Demo.grant "local"))
  /\ w_authClient (snd run) = Some (Demo.a_client (Demo.grant "local"))
  /\ exists text,
       w_fs (snd run) !! "/srv/app/token.json" = Some (File text true true).
Proof.
  intros w run.
  assert (Hw : exists fs',
             Fs.writeFile (w_fs w) (SingleCache.TOKEN_PATH Demo.env)
               (stringify Demo.env 0
                  (SingleCache.payload_of
                     (JObject
                        [("client_id", JString "app-id");
                         ("client_secret", JString "app-secret");
                         ("redirect_uris",
                          JArray
                            [JString "http://localhost:5001/oauth2callback"])])
                     (Demo.a_client (Demo.grant "local")))) = Ok fs').
  { eexists. vm_compute. reflexivity. }
  destruct Hw as [fs' Hw].
  destruct (first_authorization_saves_the_refresh_token Demo.env w
              (Demo.a_client (Demo.grant "local")) Demo.credentials_json
              Demo.registration _ fs' eq_refl
              ltac:(vm_compute; reflexivity) eq_refl eq_refl
              ltac:(vm_compute; reflexivity) ltac:(vm_compute; reflexivity)
              ltac:(discriminate) eq_refl ltac:(discriminate) Hw)
    as (H1 & H2 & H3 & (r & wr & Hfile) & _).
  split; [exact H1 |]. split; [exact H2 |].
  fold run in H3. rewrite H3.
  assert (Hperm : exists text, fs' !! "/srv/app/token.json"
                               = Some (File text true true)).
  { vm_compute in Hw. injection Hw as <-. eexists. vm_compute. reflexivity. }
  exact Hperm.
Defined.

(** ** [server.js]: answers *)

Lemma single_cache_qr_paths (E : Env) (name : string) (w : world) :
  SingleCache.qr_handler E name w
  = match SingleCache.getAuthClient E w with
    | (Throw e, w1) =>
        (Ok (Reply 500 (Envelope "Failed to fetch emails"
                                 (Some (message_of E e)))),
         record w1 [EvConsoleError "Error fetching emails:" (Some e)])
    | (Ok auth, w1) =>
        match Mailbox.getLatestEmails E Mailbox.query_server_js auth name w1
        with
        | (Ok emails, w2) => (Ok (Reply 200 (Emails emails)), w2)
        | (Throw e, w2) =>
            (Ok (Reply 500 (Envelope "Failed to fetch emails"
                                     (Some (message_of E e)))),
             record w2 [EvConsoleError "Error fetching emails:" (Some e)])
        end
    end.
Proof.
  unfold SingleCache.qr_handler, try_catch, bind.
  destruct (SingleCache.getAuthClient E w) as [[auth|e] w1]; [| reflexivity].
  destruct (Mailbox.getLatestEmails E Mailbox.query_server_js auth name w1)
    as [[emails|e] w2]; [| reflexivity].
  destruct emails; reflexivity.
Qed.

(** X16: [/qr/:name] of [server.js] never throws and has no authorization
    gate: it answers 200 with the records of the batch, or 500 with the
    message of the error that [getAuthClient] or the listing threw, and it
    never answers 400. *)
Theorem single_cache_answers_200_or_500
        (E : Env) (name : string) (w : world) :
  let answer := fst (SingleCache.qr_handler E name w) in
  ((exists emails, answer = Ok (Reply 200 (Emails emails)))
   \/ exists e,
        answer = Ok (Reply 500 (Envelope "Failed to fetch emails"
                                         (Some (message_of E e))))
        /\ (fst (SingleCache.getAuthClient E w) = Throw e
            \/ exists auth,
                 fst (SingleCache.getAuthClient E w) = Ok auth
                 /\ gmail_list E auth (q Mailbox.query_server_js)
                      (maxResults Mailbox.query_server_js) = Throw e))
  /\ forall b, answer <> Ok (Reply 400 b).
Proof.
  cbv zeta. rewrite single_cache_qr_paths.
  destruct (SingleCache.getAuthClient E w) as [[auth|e] w1].
  - pose proof (mailbox_failure_iff E Mailbox.query_server_js auth name w1)
      as Hfail.
    destruct (Mailbox.getLatestEmails E Mailbox.query_server_js auth name w1)
      as [[emails|e] w2]; simpl.
    + split; [left; now exists emails | discriminate].
    + split; [| discriminate]. right. exists e. split; [reflexivity |].
      right. exists auth. split; [reflexivity |]. now apply Hfail.
  - simpl. split; [| discriminate]. right. exists e. split; [reflexivity |].
    now left.
Qed.

(** ** Which entry of [credentials.json] is the registration *)

(** X17: when [credentials.json] holds both a [web] and an [installed]
    entry, the per-user variants build their client from [web], while
    [saveCredentials] of [server.js] writes the identity of [installed]
    into [token.json]. *)
Theorem web_and_installed_are_preferred_differently
        (E : Env) (keys kw ki r : json) (c : client) (w : world)
        (content : string) (fs' : filesystem) :
  Js.field keys "web" = Some kw -> Json.truthy kw = true ->
  Js.field keys "installed" = Some ki -> Json.truthy ki = true ->
  Js.field kw "redirect_uris" = Some r -> r <> JNull ->
  Fs.readFile (w_fs w) (SingleCache.CREDENTIALS_PATH E) = Ok content ->
  Json.parse content = Ok keys ->
  Fs.writeFile (w_fs w) (SingleCache.TOKEN_PATH E)
    (stringify E 0 (SingleCache.payload_of ki c)) = Ok fs' ->
  PerUser.new_client keys
  = Ok {| client_id := Js.field kw "client_id";
          client_secret := Js.field kw "client_secret";
          redirect_uri := Js.index0 r;
          credentials := JObject [] |}
  /\ fst (SingleCache.saveCredentials E c w) = Ok tt
  /\ w_fs (snd (SingleCache.saveCredentials E c w)) = fs'
  /\ Js.field (SingleCache.payload_of ki c) "client_id"
     = Js.field ki "client_id".
Proof.
  intros Hweb Htw Hinst Hti Hr Hrn Hread Hparse Hw.
  assert (Hobj : exists kvs, keys = JObject kvs).
  { destruct keys; try discriminate. eauto. }
  destruct Hobj as [kvs ->].
  split; [| split; [| split]].
  - unfold PerUser.new_client. rewrite Hweb. simpl Js.truthy. rewrite Htw.
    destruct kw; try discriminate; rewrite Hr; destruct r; congruence.
  - rewrite saveCredentials_run. cbv zeta. rewrite Hread, Hparse, Hinst.
    simpl Js.truthy. rewrite Hti.
    destruct ki; try discriminate; now rewrite Hw.
  - rewrite saveCredentials_run. cbv zeta. rewrite Hread, Hparse, Hinst.
    simpl Js.truthy. rewrite Hti.
    destruct ki; try discriminate; now rewrite Hw.
  - apply payload_fields.
Qed.

Lemma web_and_installed_are_preferred_differently_witness :
  let w := Demo.world_of Fixture.disk_both_entries None in
  let c := Demo.a_client (Demo.grant "local") in
  Json.parse Fixture.both_entries_json = Ok Fixture.both_entries
  /\ client_id (match PerUser.new_client Fixture.both_entries with
                | Ok cl => cl
                | Throw _ => c
                end)
     = Some (JString "web-id")
  /\ fst (SingleCache.saveCredentials Demo.env c w) = Ok tt
  /\ Js.field (SingleCache.payload_of (Fixture.entry "installed-id") c)
       "client_id"
     = Some (JString "installed-id").
Proof.
  intros w c. split; [vm_compute; reflexivity |].
  assert (Hw : exists fs',
             Fs.writeFile (w_fs w) (SingleCache.TOKEN_PATH Demo.env)
               (stringify Demo.env 0
                  (SingleCache.payload_of (Fixture.entry "installed-id") c))
             = Ok fs').
  { eexists. vm_compute. reflexivity. }
  destruct Hw as [fs' Hw].
  destruct (web_and_installed_are_preferred_differently Demo.env
              Fixture.both_entries (Fixture.entry "web-id")
              (Fixture.entry "installed-id")
              (JArray [JString "http://localhost/cb"]) c w
              Fixture.both_entries_json fs'
              eq_refl eq_refl eq_refl eq_refl eq_refl ltac:(discriminate)
              ltac:(vm_compute; reflexivity) ltac:(vm_compute; reflexivity)
              Hw)
    as (Hnew & Hsave & _ & Hid).
  rewrite Hnew. split; [reflexivity |]. split; [exact Hsave | exact Hid].
Defined.

(** ** Startup of [part_001] *)

(** X18: [part_001] starts listening exactly when [credentials.json] can be
    read and its text parses, and then holds the parsed value as its
    registration; in every other case it exits with status 1.  Either way
    startup writes no file. *)
Theorem part_001_starts_iff_credentials_parse (E : Env) (w : world) :
  (forall app,
      fst (PerUser.main E Part001 w) = Listening 5001 app
      <-> exists text,
           Fs.readFile (w_fs w) (PerUser.CREDENTIALS_PATH E) = Ok text
           /\ Json.parse text = Ok app)
  /\ ((forall app, fst (PerUser.main E Part001 w) <> Listening 5001 app) ->
      fst (PerUser.main E Part001 w) = Exited 1)
  /\ w_fs (snd (PerUser.main E Part001 w)) = w_fs w.
Proof.
  split; [| split].
  - intros app. rewrite main_part_001.
    destruct (Fs.readFile (w_fs w) (PerUser.CREDENTIALS_PATH E))
      as [text|e] eqn:Hr.
    + destruct (Json.parse text) as [app'|e] eqn:Hp.
      * split.
        -- intros [= <-]. now exists text.
        -- intros (text' & [= <-] & Hp'). congruence.
      * split; [discriminate |].
        intros (text' & [= <-] & Hp'). congruence.
    + split; [discriminate |]. intros (text' & H & _). discriminate.
  - intros Hnot. rewrite main_part_001 in Hnot |- *.
    destruct (Fs.readFile (w_fs w) (PerUser.CREDENTIALS_PATH E))
      as [text|e]; [| reflexivity].
    destruct (Json.parse text) as [app|e]; [| reflexivity].
    now destruct (Hnot app).
  - unfold PerUser.main, PerUser.load_credentials, PerUser.read_credentials.
    run. destruct (Fs.readFile (w_fs w) (PerUser.CREDENTIALS_PATH E))
      as [text|e]; [| reflexivity].
    simpl. destruct (Json.parse text); reflexivity.
Qed.

(** ** How the batch calls the mailbox *)

Section Calls.

Variable E : Env.
Variable cfg : query.
Variable auth : client.
Variable userName : string.

Lemma fetched_app (a b : list event) :
  Batch.fetched (a ++ b) = Batch.fetched a ++ Batch.fetched b.
Proof.
  induction a as [|e a IH]; [reflexivity |].
  destruct e; simpl; now rewrite ?IH.
Qed.

Lemma listings_app (a b : list event) :
  Batch.listings (a ++ b) = Batch.listings a + Batch.listings b.
Proof.
  induction a as [|e a IH]; [reflexivity |].
  destruct e; simpl; now rewrite ?IH.
Qed.

(** The loop fetches each message it is given once, in order, and lists
    nothing. *)
Lemma fetch_all_calls (messages : list message) :
  forall (emailData : list email) (w : world),
  exists new,
    w_trace (snd (Mailbox.fetch_all E cfg auth userName messages emailData w))
    = w_trace w ++ new
    /\ Batch.fetched new = map msg_id messages
    /\ Batch.listings new = 0.
Proof.
  induction messages as [|m rest IH]; intros emailData w.
  - exists []. simpl. now rewrite app_nil_r.
  - rewrite fetch_all_cons, fetch_one_run.
    destruct (gmail_get E auth (msg_id m)) as [headers|e].
    + destruct (Mailbox.date_of E headers) as [d|e].
      * destruct (IH (emailData
                        ++ [Mailbox.normalized cfg userName m
                              (Mailbox.subject_of headers) d
                              (uuid E (w_uuids w))])
                     (minted (record w [EvGmailGet auth (msg_id m); EvUuid])))
          as (new & Ht & Hf & Hl).
        exists ([EvGmailGet auth (msg_id m); EvUuid] ++ new).
        rewrite Ht, fetched_app, listings_app, Hf, Hl. simpl.
        now rewrite <- app_assoc.
      * destruct (IH emailData
                     (record (record w [EvGmailGet auth (msg_id m)])
                        [EvConsoleError ("Error fetching message "
                                           +:+ msg_id m +:+ ":") (Some e)]))
          as (new & Ht & Hf & Hl).
        exists ([EvGmailGet auth (msg_id m);
                 EvConsoleError ("Error fetching message "
                                   +:+ msg_id m +:+ ":") (Some e)] ++ new).
        rewrite Ht, fetched_app, listings_app, Hf, Hl. simpl.
        now rewrite <- !app_assoc.
    + destruct (IH emailData
                   (record (record w [EvGmailGet auth (msg_id m)])
                      [EvConsoleError ("Error fetching message "
                                         +:+ msg_id m +:+ ":") (Some e)]))
        as (new & Ht & Hf & Hl).
      exists ([EvGmailGet auth (msg_id m);
               EvConsoleError ("Error fetching message "
                                 +:+ msg_id m +:+ ":") (Some e)] ++ new).
      rewrite Ht, fetched_app, listings_app, Hf, Hl. simpl.
      now rewrite <- !app_assoc.
Qed.

End Calls.

(** X19: the batch calls the mailbox without retrying.  It lists once; then
    it fetches the metadata of every listed message exactly once, one after
    the other in listing order, going on after a failed fetch; when the
    listing throws or is missing it fetches nothing. *)
Theorem batch_lists_once_and_fetches_each_message_once
        (E : Env) (cfg : query) (auth : client) (userName : string)
        (w : world) :
  exists new,
    w_trace (snd (Mailbox.getLatestEmails E cfg auth userName w))
    = w_trace w ++ new
    /\ Batch.listings new = 1
    /\ Batch.fetched new
       = match gmail_list E auth (q cfg) (maxResults cfg) with
         | Ok (Some messages) => map msg_id messages
         | Ok None => []
         | Throw _ => []
         end.
Proof.
  rewrite getLatestEmails_run. cbv zeta.
  destruct (gmail_list E auth (q cfg) (maxResults cfg))
    as [[[|m rest]|]|e].
  - eexists. simpl. rewrite <- app_assoc. now split.
  - destruct (fetch_all_calls E cfg auth userName (m :: rest) []
                (record w [EvGmailList auth (q cfg) (maxResults cfg)]))
      as (new & Ht & Hf & Hl).
    exists (EvGmailList auth (q cfg) (maxResults cfg) :: new).
    rewrite Ht. simpl w_trace. rewrite <- app_assoc.
    split; [reflexivity |]. simpl. now rewrite Hf, Hl.
  - eexists. simpl. rewrite <- app_assoc. now split.
  - eexists. simpl. rewrite <- app_assoc. now split.
Qed.

(** ** Authorizing one user and the others *)

(** X20: a callback for one plain identity authorizes nobody else.  Whatever
    its code and whatever the provider answers, the client the factory
    restores for any other plain identity is the same after the callback as
    before, and so is the verdict of the gate of [/qr/:name] on it. *)
Theorem callback_for_one_identity_changes_no_other
        (E : Env) (v : variant) (app : json) (code : option string)
        (state other : string) (w : world) (c0 : client) :
  PerUser.plain_identity state = true ->
  PerUser.plain_identity other = true ->
  other <> state ->
  let after :=
    snd (PerUser.oauth2callback E v app code (Some state) w) in
  PerUser.restored E (w_fs after) c0 other
  = PerUser.restored E (w_fs w) c0 other
  /\ PerUser.isAuthorized (PerUser.restored E (w_fs after) c0 other)
     = PerUser.isAuthorized (PerUser.restored E (w_fs w) c0 other)
  /\ fst (PerUser.load E app other after) = fst (PerUser.load E app other w).
Proof.
  intros Hs Ho Hne after.
  assert (Hp : PerUser.getTokenPathForUser E other
               <> PerUser.getTokenPathForUser E state).
  { intros Heq. apply Hne. now apply (getTokenPathForUser_inj E). }
  assert (Hnode : w_fs after !! PerUser.getTokenPathForUser E other
                  = w_fs w !! PerUser.getTokenPathForUser E other).
  { subst after.
    assert (Hm : w_fs (snd (PerUser.missing_param v w)) = w_fs w).
    { destruct (missing_param_run v w) as (new & -> & _). reflexivity. }
    unfold PerUser.oauth2callback.
    destruct code as [c|]; [| now rewrite Hm].
    destruct (PerUser.falsy (Some c) || PerUser.falsy (Some state));
      [now rewrite Hm |].
    rewrite exchange_and_store_run.
    destruct (PerUser.new_client app) as [c1|e]; [| reflexivity].
    cbv zeta. destruct (getToken E _ c) as [tokens|e]; [| reflexivity].
    destruct (Fs.writeFile (w_fs w) _ _) as [fs'|e] eqn:Hw; [| reflexivity].
    exact (proj2 (writeFile_lookup _ _ _ _ Hw) _ Hp). }
  assert (Hrest : forall c,
             PerUser.restored E (w_fs after) c other
             = PerUser.restored E (w_fs w) c other)
    by (intros c; now apply restored_same_node).
  split; [apply Hrest |]. split; [now rewrite Hrest |].
  rewrite !load_result. destruct (PerUser.new_client app); [| reflexivity].
  now rewrite Hrest.
Qed.

Lemma callback_for_one_identity_changes_no_other_witness :
  let after :=
    snd (PerUser.oauth2callback Demo.env Part000 Demo.registration
           (Some "good-code") (Some "carol")
           (Demo.world_of Demo.disk None)) in
  PerUser.plain_identity "carol" = true
  /\ PerUser.plain_identity "b" = true
  /\ fst (PerUser.load Demo.env Demo.registration "b" after)
     = Ok (Demo.grant "of-b").
Proof.
  intros after. split; [reflexivity |]. split; [reflexivity |].
  destruct (callback_for_one_identity_changes_no_other Demo.env Part000
              Demo.registration (Some "good-code") "carol" "b"
              (Demo.world_of Demo.disk None) (Demo.a_client (JObject []))
              eq_refl eq_refl ltac:(discriminate))
    as (_ & _ & Hload).
  fold after in Hload. rewrite Hload. vm_compute. reflexivity.
Defined.
